(** * The fetch wrapper: URL builder, props resolver, request executors,
      timeout racer and facade

    A shallow embedding of the module that exports [getHost], [getProps],
    [withoutBody], [withBody], [withText], [withTimeout] and the default
    [api] object, followed by the properties its specification states.

    ECMAScript values are an inductive type, synchronous code that may throw
    returns a [result], and a promise is described by the time it takes to
    settle together with the completion it settles with. *)

From Stdlib Require Import String Ascii List ZArith NArith Bool Lia DecimalString Sorted.
From Stdlib Require Import DecimalPos DecimalZ Permutation.
Import ListNotations.
Open Scope string_scope.

(* ------------------------------------------------------------------ *)
(** ** Values *)

(** The values that flow through the module: primitives, arrays, ordinary
    objects carrying data properties (own properties, in the order they were
    created) and error instances raised by the runtime.  Numbers are the
    safe integers, of magnitude at most 2^53 - 1, which are exact and print
    in plain decimal; [safe_integers] below says of a value that its
    numbers are such.  The characters of a string stand for its code
    units.  Callable values are not part of the universe. *)
#[warnings="-register-all"]
Inductive value : Type :=
| VUndefined
| VNull
| VBool (b : bool)
| VNum (n : Z)
| VStr (s : string)
| VArr (items : list value)
| VObj (props : list (string * value))
| VError (name message : string).

Definition obj : Type := list (string * value).

(** Completion of synchronous code: a normal value or a thrown one. *)
Inductive result (A : Type) : Type :=
| Ok (a : A)
| Throw (e : value).
Arguments Ok {A} a.
Arguments Throw {A} e.

Definition bind {A B : Type} (r : result A) (k : A -> result B) : result B :=
  match r with
  | Ok a => k a
  | Throw e => Throw e
  end.

Notation "x <- e ;; k" := (bind e (fun x => k))
  (at level 61, e at next level, right associativity).

(** A [TypeError] of the runtime; the message text is the engine's and is
    not modelled. *)
Definition TypeError : value := VError "TypeError" "".

(* ------------------------------------------------------------------ *)
(** ** Own properties *)

Section Properties.
Context {A : Type}.

(** Own-property lookup. *)
Fixpoint lookup (k : string) (o : list (string * A)) : option A :=
  match o with
  | [] => None
  | (k', v) :: o' => if String.eqb k k' then Some v else lookup k o'
  end.

Definition has_own (k : string) (o : list (string * A)) : bool :=
  match lookup k o with Some _ => true | None => false end.

(** Property definition: an existing key keeps its position and takes the
    new value, a new key goes last. *)
Fixpoint set (k : string) (v : A) (o : list (string * A)) : list (string * A) :=
  match o with
  | [] => [(k, v)]
  | (k', v') :: o' =>
      if String.eqb k k' then (k', v) :: o' else (k', v') :: set k v o'
  end.
End Properties.

(* ------------------------------------------------------------------ *)
(** ** Abstract operations of the language *)

(** ToBoolean. *)
Definition truthy (v : value) : bool :=
  match v with
  | VUndefined | VNull => false
  | VBool b => b
  | VNum n => negb (n =? 0)%Z
  | VStr s => negb (s =? "")
  | VArr _ | VObj _ | VError _ _ => true
  end.

(** [a || b] *)
Definition or_value (a b : value) : value := if truthy a then a else b.

(** Number::toString on the safe integers (plain decimal).  A number
    outside of them prints otherwise, in exponent form from 10^21 on, and
    is not described. *)
Definition Number_toString (n : Z) : string := NilZero.string_of_int (Z.to_int n).

Fixpoint join (sep : string) (l : list string) : string :=
  match l with
  | [] => ""
  | [s] => s
  | s :: l' => s ++ sep ++ join sep l'
  end.

(** ToString, as a template literal applies it.  An ordinary object answers
    through [Object.prototype.toString] unless an own [toString] data
    property hides it, in which case no conversion is found; an array
    answers with its elements joined by commas. *)
Fixpoint ToString (v : value) : result string :=
  match v with
  | VUndefined => Ok "undefined"
  | VNull => Ok "null"
  | VBool b => Ok (if b then "true" else "false")
  | VNum n => Ok (Number_toString n)
  | VStr s => Ok s
  | VArr items =>
      let element x :=
        match x with
        | VUndefined | VNull => Ok ""
        | _ => ToString x
        end in
      (fix elements (l : list value) : result string :=
         match l with
         | [] => Ok ""
         | x :: l' =>
             s <- element x ;;
             match l' with
             | [] => Ok s
             | _ => r <- elements l' ;; Ok (s ++ "," ++ r)
             end
         end) items
  | VObj o => if has_own "toString" o then Throw TypeError else Ok "[object Object]"
  | VError name message =>
      Ok (if message =? "" then name
          else if name =? "" then message
          else name ++ ": " ++ message)
  end.

(** The numbers that a value shows when it is turned into a string are safe
    integers: the number itself, or the elements of an array, at any depth. *)
Fixpoint safe_integers (v : value) : bool :=
  match v with
  | VNum n => (Z.abs n <=? 9007199254740991)%Z
  | VArr items => forallb safe_integers items
  | _ => true
  end.

(** [v === n] for a number [n]. *)
Definition strict_eq_num (v : value) (n : Z) : bool :=
  match v with
  | VNum m => (m =? n)%Z
  | _ => false
  end.

(** A property key is an array index when it is the canonical decimal text
    of an integer below 2^32 - 1. *)
Definition array_index (k : string) : option N :=
  match NilZero.uint_of_string k with
  | Some u =>
      let n := N.of_uint u in
      if (NilZero.string_of_uint (N.to_uint n) =? k) && (n <? 4294967295)%N
      then Some n else None
  | None => None
  end.

Definition is_array_index (k : string) : bool :=
  match array_index k with Some _ => true | None => false end.

Fixpoint insert_index (e : N * string) (l : list (N * string)) : list (N * string) :=
  match l with
  | [] => [e]
  | e' :: l' => if (fst e <=? fst e')%N then e :: l else e' :: insert_index e l'
  end.

Definition sort_indices (l : list (N * string)) : list (N * string) :=
  fold_right insert_index [] l.

Fixpoint index_keys (ks : list string) : list (N * string) :=
  match ks with
  | [] => []
  | k :: ks' =>
      match array_index k with
      | Some n => (n, k) :: index_keys ks'
      | None => index_keys ks'
      end
  end.

(** The order in which an ordinary object lists its own keys: array indices
    in ascending numeric order, then the other keys in creation order. *)
Definition own_property_keys (o : obj) : list string :=
  let ks := map fst o in
  map snd (sort_indices (index_keys ks))
    ++ filter (fun k => negb (is_array_index k)) ks.

Definition indices (n : nat) : list string :=
  map (fun i => NilZero.string_of_uint (Nat.to_uint i)) (seq 0 n).

(** [Object.keys(v)] *)
Definition Object_keys (v : value) : result (list string) :=
  match v with
  | VUndefined | VNull => Throw TypeError
  | VObj o => Ok (own_property_keys o)
  | VArr items => Ok (indices (List.length items))
  | VStr s => Ok (indices (String.length s))
  | VBool _ | VNum _ | VError _ _ => Ok []
  end.

Definition nat_of_index (k : string) : nat :=
  match array_index k with Some n => N.to_nat n | None => 0 end.

(** [v[k]] for [k] one of the keys [Object.keys(v)] lists. *)
Definition own_member (v : value) (k : string) : value :=
  match v with
  | VObj o => match lookup k o with Some x => x | None => VUndefined end
  | VArr items => nth (nat_of_index k) items VUndefined
  | VStr s =>
      match String.get (nat_of_index k) s with
      | Some c => VStr (String c EmptyString)
      | None => VUndefined
      end
  | _ => VUndefined
  end.

(** [v.error].  No built-in prototype has a member of that name, so only an
    own property of an ordinary object can answer; reading it off
    [undefined] or [null] throws. *)
Definition get_error (v : value) : result value :=
  match v with
  | VUndefined | VNull => Throw TypeError
  | VObj o => Ok (match lookup "error" o with Some x => x | None => VUndefined end)
  | _ => Ok VUndefined
  end.

(** [String.prototype.substr(start)] *)
Definition String_substr (s : string) (start : Z) : string :=
  let len := Z.of_nat (String.length s) in
  let from := if (start <? 0)%Z then Z.max (len + start) 0 else Z.min start len in
  String.substring (Z.to_nat from) (Z.to_nat (len - from)) s.

(** [String.prototype.substring(start, end)] *)
Definition String_substring (s : string) (a b : Z) : string :=
  let len := Z.of_nat (String.length s) in
  let clamp x := Z.min (Z.max x 0) len in
  let lo := Z.min (clamp a) (clamp b) in
  let hi := Z.max (clamp a) (clamp b) in
  String.substring (Z.to_nat lo) (Z.to_nat (hi - lo)) s.

(* ------------------------------------------------------------------ *)
(** ** Promises *)

(** A promise is known by the time it takes to settle, counted in the
    timer's units from its creation, and by the completion it settles with:
    [Ok] when it fulfils, [Throw] when it rejects.  [Never] is a promise that
    stays pending. *)
Inductive promise (A : Type) : Type :=
| Settled (t : N) (r : result A)
| Never.
Arguments Settled {A} t r.
Arguments Never {A}.

Definition resolve {A : Type} (a : A) : promise A := Settled 0%N (Ok a).

(** Synchronous code run inside an [async] body. *)
Definition sync {A : Type} (r : result A) : promise A := Settled 0%N r.

(** The same promise, created [d] units later. *)
Definition later {A : Type} (d : N) (p : promise A) : promise A :=
  match p with
  | Settled t r => Settled (d + t)%N r
  | Never => Never
  end.

(** [await p] followed by the rest of the body; a rejection of [p] is thrown
    at the [await]. *)
Definition await {A B : Type} (p : promise A) (k : A -> promise B) : promise B :=
  match p with
  | Settled t (Ok a) => later t (k a)
  | Settled t (Throw e) => Settled t (Throw e)
  | Never => Never
  end.

Notation "x <~ p ;; k" := (await p (fun x => k))
  (at level 61, p at next level, right associativity).

(** [try { body } catch (error) { handler }] *)
Definition try_catch {A : Type} (body : promise A) (handler : value -> promise A)
  : promise A :=
  match body with
  | Settled t (Throw e) => later t (handler e)
  | _ => body
  end.

(** [return p] where [p] is a promise: the body completes normally with the
    promise itself, whatever that promise later does. *)
Definition Return {A : Type} (p : promise A) : promise (promise A) := resolve p.

(** An [async] function: its promise takes up the promise its body
    returned, and rejects with what the body threw. *)
Definition async {A : Type} (body : promise (promise A)) : promise A :=
  p <~ body ;; p.

(** [Promise.race([p, q])]: the one that settles first; when both settle at
    the same instant the one listed first is taken. *)
Definition race {A : Type} (p q : promise A) : promise A :=
  match p, q with
  | Settled t _, Settled u _ => if (t <=? u)%N then p else q
  | Settled _ _, Never => p
  | Never, _ => q
  end.

(** The same promise seen at another type of values. *)
Definition promise_map {A B : Type} (f : A -> B) (p : promise A) : promise B :=
  match p with
  | Settled t (Ok a) => Settled t (Ok (f a))
  | Settled t (Throw e) => Settled t (Throw e)
  | Never => Never
  end.

(** [new Promise(resolve => setTimeout(() => resolve(v), ms))], for a delay
    [ms] that the timer takes as it is: at most 2147483647.  A longer delay
    does not fit the timer, which then fires early; the model does not
    describe that, and what is proved of a timeout is proved within the
    bound. *)
Definition after {A : Type} (ms : N) (v : A) : promise A := Settled ms (Ok v).

(* ------------------------------------------------------------------ *)
(** ** The module *)

Inductive Method : Type := GET | POST | PUT | DELETE.

Definition Method_toString (m : Method) : string :=
  match m with
  | GET => "GET"
  | POST => "POST"
  | PUT => "PUT"
  | DELETE => "DELETE"
  end.

(** [process.env]: each variable is a string or is not defined. *)
Record Env : Type := {
  DEFAULT_API_HOST : option string;
  DEFAULT_NODE_HOST : option string;
  DEFAULT_API_PORT : option string;
  DEFAULT_API_VERSION : option string
}.

(** [process.env.X || fallback] *)
Definition or_else (x : option string) (fallback : string) : string :=
  match x with
  | Some s => if s =? "" then fallback else s
  | None => fallback
  end.

(** The second argument of [fetch]; [init_body] is [None] where the literal
    has no [body] property. *)
Record RequestInit : Type := {
  init_method : string;
  init_headers : list (string * string);
  init_body : option value
}.

(** What the module uses of a [Response]: its [ok] flag and the promises
    that [json()] and [text()] return. *)
Record Response : Type := {
  ok : bool;
  json : promise value;
  text : promise string
}.

(** The keys of [IProps]; the proxy that [getProps] returns is read at
    these. None of them names a member of [Object.prototype], so on an
    ordinary object [name in target] is the own-property test. *)
Inductive IPropsKey : Type :=
| Route | Query | Body | ApiVersion | ServiceKey | RefreshTime.

Definition key_name (k : IPropsKey) : string :=
  match k with
  | Route => "route"
  | Query => "query"
  | Body => "body"
  | ApiVersion => "apiVersion"
  | ServiceKey => "service"
  | RefreshTime => "refreshTime"
  end.

Definition Object_prototype_keys : list string :=
  ["constructor"; "__defineGetter__"; "__defineSetter__"; "hasOwnProperty";
   "__lookupGetter__"; "__lookupSetter__"; "isPrototypeOf";
   "propertyIsEnumerable"; "toString"; "valueOf"; "__proto__"; "toLocaleString"].

(** [name in o] for a key of [IProps] and an ordinary object [o]. *)
Definition key_in (name : IPropsKey) (o : obj) : bool := has_own (key_name name) o.

(** [o[name]] for a key of [IProps] and an ordinary object [o]. *)
Definition key_get (o : obj) (name : IPropsKey) : value :=
  match lookup (key_name name) o with
  | Some v => v
  | None => VUndefined
  end.

Definition failure (error : value) : value :=
  VObj [("data", VNull); ("error", error); ("code", VStr "internal_error")].

Section Api.

(** The enum [Service] is declared in [types/index], which is not part of
    the sources at hand.  Its members [PROXY] and [NODE] are parameters:
    numbers, as the table key [service || 0] of line 46 takes them. *)
Variables PROXY NODE : Z.

Variable env : Env.

(** The global [fetch] and [JSON.stringify]. *)
Variable fetch : string -> RequestInit -> promise Response.
Variable JSON_stringify : value -> result value.

Definition buildUrlQuery (query : value) : result string :=
  keys <- Object_keys query ;;
  pairs <- fold_right
             (fun key rest =>
                v <- ToString (own_member query key) ;;
                l <- rest ;;
                Ok ((key ++ "=" ++ v) :: l))
             (Ok []) keys ;;
  Ok (join "&" pairs).

Definition hostService : list (string * string) :=
  set (Number_toString NODE)
      (or_else (DEFAULT_NODE_HOST env) "https://node.mainnet.klever.finance")
      (set (Number_toString PROXY)
           (or_else (DEFAULT_API_HOST env) "https://api.mainnet.klever.finance")
           []).

(** [hostService[service || 0]], as far as the code goes on to use it: a
    key the table does not own yields no string, and the [host.substr] that
    follows throws. *)
Definition selectHost (service : value) : result string :=
  key <- ToString (or_value service (VNum 0)) ;;
  match lookup key hostService with
  | Some host => Ok host
  | None => Throw TypeError
  end.

(** Lines 50 to 52. *)
Definition stripSlash (host : string) : string :=
  let len := Z.of_nat (String.length host) in
  if String_substr host (len - 1) =? "/"
  then String_substring host 0 (len - 1)
  else host.

(** Lines 54 to 60. *)
Definition appendService (host : string) (service apiVersion : value)
  : result string :=
  let port := or_else (DEFAULT_API_PORT env) "" in
  if strict_eq_num service PROXY then
    let port := if negb (port =? "") then ":" ++ port else port in
    version <- ToString apiVersion ;;
    Ok (host ++ port ++ "/" ++ version)
  else Ok host.

(** Lines 62 to 64. *)
Definition urlParam (query : value) : result string :=
  if truthy query then
    q <- buildUrlQuery query ;;
    Ok ("?" ++ q)
  else Ok "".

Definition getHost (route query service apiVersion : value) : result string :=
  host <- selectHost service ;;
  let host := stripSlash host in
  host <- appendService host service apiVersion ;;
  param <- urlParam query ;;
  path <- ToString route ;;
  Ok (host ++ "/" ++ path ++ param).

Definition defaultValues : obj :=
  [("route", VStr "/");
   ("service", VNum PROXY);
   ("apiVersion", VStr (or_else (DEFAULT_API_VERSION env) "v1.0"));
   ("refreshTime", VNum 60)].

(** The [get] trap of the proxy. *)
Definition get (target : obj) (name : IPropsKey) : value :=
  if key_in name target then key_get target name
  else if key_in name defaultValues then key_get defaultValues name
  else VUndefined.

(** [new Proxy(props, { get })], as the function its reads compute. *)
Definition getProps (props : obj) : IPropsKey -> value := get props.

Definition json_headers : list (string * string) :=
  [("Content-Type", "application/json")].

Definition withoutBody (props : obj) (method : Method) : promise value :=
  async (try_catch
    (let p := getProps props in
     let route := p Route in
     let query := p Query in
     let service := p ServiceKey in
     let apiVersion := p ApiVersion in
     url <~ sync (getHost route query service apiVersion) ;;
     response <~ fetch url {| init_method := Method_toString method;
                              init_headers := json_headers;
                              init_body := None |} ;;
     if negb (ok response) then
       parsed <~ json response ;;
       error <~ sync (get_error parsed) ;;
       Return (resolve (failure error))
     else Return (json response))
    (fun error => Return (resolve (failure error)))).

Definition withBody (props : obj) (method : Method) : promise value :=
  async (try_catch
    (let p := getProps props in
     let route := p Route in
     let body := p Body in
     let query := p Query in
     let service := p ServiceKey in
     let apiVersion := p ApiVersion in
     url <~ sync (getHost route query service apiVersion) ;;
     payload <~ sync (JSON_stringify body) ;;
     response <~ fetch url {| init_method := Method_toString method;
                              init_headers := json_headers;
                              init_body := Some payload |} ;;
     if negb (ok response) then
       parsed <~ json response ;;
       error <~ sync (get_error parsed) ;;
       Return (resolve (failure error))
     else Return (json response))
    (fun error => Return (resolve (failure error)))).

Definition withText (props : obj) (method : Method) : promise value :=
  async (try_catch
    (let p := getProps props in
     let route := p Route in
     let query := p Query in
     let service := p ServiceKey in
     let apiVersion := p ApiVersion in
     url <~ sync (getHost route query service apiVersion) ;;
     response <~ fetch url {| init_method := Method_toString method;
                              init_headers := json_headers;
                              init_body := None |} ;;
     if negb (ok response) then
       parsed <~ json response ;;
       error <~ sync (get_error parsed) ;;
       Return (resolve (failure error))
     else Return (promise_map VStr (text response)))
    (fun error => Return (resolve (failure error)))).

Definition timeout_failure : value := failure (VStr "Fetch timeout").

(** [timeout] is [None] when the argument is left out. *)
Definition withTimeout (p : promise value) (timeout : option N) : promise value :=
  let timeout := match timeout with Some ms => ms | None => 10000%N end in
  async (Return (race p (after timeout timeout_failure))).

Definition api_get (props : obj) : promise value :=
  async (Return (withTimeout (withoutBody props GET) None)).

Definition api_post (props : obj) : promise value :=
  async (Return (withTimeout (withBody props POST) None)).

Definition api_text (props : obj) : promise value :=
  async (Return (withTimeout (withText props GET) None)).

End Api.

(* ------------------------------------------------------------------ *)
(** ** The query string as the specification words it *)

(** The text a value takes inside a template literal, when it has one. *)
Definition text_of (v : value) : string :=
  match ToString v with
  | Ok s => s
  | Throw _ => ""
  end.

Definition pair_text (kv : string * value) : string :=
  fst kv ++ "=" ++ text_of (snd kv).

(** The specification's wording, not the code: the pairs in the order the
    keys were inserted, joined by [&], after a question mark. *)
Definition insertion_order_query (q : obj) : string :=
  "?" ++ join "&" (map pair_text q).

(* ------------------------------------------------------------------ *)
(** ** Sample inputs *)

Module Sample.

(** Nothing set in the environment: the built-in hosts and version. *)
Definition bare_env : Env :=
  {| DEFAULT_API_HOST := None;
     DEFAULT_NODE_HOST := None;
     DEFAULT_API_PORT := None;
     DEFAULT_API_VERSION := None |}.

(** Hosts that end in slashes, and a port. *)
Definition slash_env : Env :=
  {| DEFAULT_API_HOST := Some "https://api.example/";
     DEFAULT_NODE_HOST := Some "https://node.example//";
     DEFAULT_API_PORT := Some "8080";
     DEFAULT_API_VERSION := None |}.

Definition quoted (s : string) : string :=
  let q := String (ascii_of_nat 34) "" in q ++ s ++ q.

(** Status 500 with the body [{ error: bad }] in JSON. *)
Definition bad_response : Response :=
  {| ok := false;
     json := Settled 3 (Ok (VObj [("error", VStr "bad")]));
     text := Settled 3 (Ok ("{" ++ quoted "error" ++ ":" ++ quoted "bad" ++ "}")) |}.

(** Status 200 with the body [{ x: 1 }] in JSON. *)
Definition x1_response : Response :=
  {| ok := true;
     json := Settled 3 (Ok (VObj [("x", VNum 1)]));
     text := Settled 3 (Ok ("{" ++ quoted "x" ++ ":1}")) |}.

(** Status 200 with an empty body, which is not JSON. *)
Definition empty_response : Response :=
  {| ok := true;
     json := Settled 3 (Throw (VError "SyntaxError" "Unexpected end of JSON input"));
     text := Settled 3 (Ok "") |}.

(** An HTTP call that answers every request alike after 120 units. *)
Definition answering (r : Response) : string -> RequestInit -> promise Response :=
  fun _ _ => Settled 120 (Ok r).

(** An HTTP call that stays pending. *)
Definition hanging : string -> RequestInit -> promise Response :=
  fun _ _ => Never.

(** [JSON.stringify] as far as the samples call it, on the body of a
    descriptor that has none: [undefined] in, [undefined] out.  The mock
    refuses every other value. *)
Definition stringify (v : value) : result value :=
  match v with
  | VUndefined => Ok VUndefined
  | _ => Throw TypeError
  end.

Definition status_props : obj := [("route", VStr "status")].

(** A request that fails on the network after 7 units. *)
Definition refusing : string -> RequestInit -> promise Response :=
  fun _ _ => Settled 7 (Throw (VError "TypeError" "Failed to fetch")).

(** Status 502 with an HTML page for a body. *)
Definition gateway_response : Response :=
  {| ok := false;
     json := Settled 3 (Throw (VError "SyntaxError" "Unexpected token <"));
     text := Settled 3 (Ok "<html>Bad Gateway</html>") |}.

(** Status 500 with the body [null] in JSON. *)
Definition null_response : Response :=
  {| ok := false;
     json := Settled 3 (Ok VNull);
     text := Settled 3 (Ok "null") |}.

(** An HTTP call that answers the [GET] of one URL and leaves every other
    request pending. *)
Definition selective (url : string) (r : Response)
  : string -> RequestInit -> promise Response :=
  fun u init =>
    if (u =? url) && (init_method init =? "GET")
    then Settled 120 (Ok r) else Never.

(** An HTTP call that answers the [POST] of one URL when the request
    carries a body, and leaves every other request pending. *)
Definition body_only (url : string) (r : Response)
  : string -> RequestInit -> promise Response :=
  fun u init =>
    match init_body init with
    | Some _ =>
        if (u =? url) && (init_method init =? "POST")
        then Settled 120 (Ok r) else Never
    | None => Never
    end.

End Sample.

(* ------------------------------------------------------------------ *)
(** * Properties *)

(** ** The abstract operations at a few values *)

Example sanity_keys :
  own_property_keys [("b", VNum 1); ("10", VNum 2); ("2", VNum 3); ("01", VNull)]
  = ["2"; "10"; "b"; "01"].
Proof. vm_compute. reflexivity. Qed.

Example sanity_tostring :
  ToString (VArr [VNum 1; VNull; VStr "a"; VArr [VNum (-2); VNum 3]]) = Ok "1,,a,-2,3".
Proof. vm_compute. reflexivity. Qed.

Example sanity_substr : String_substr "abc/" 3 = "/" /\ String_substr "" (-1) = ""
  /\ String_substring "abc/" 0 3 = "abc" /\ array_index "" = None /\ array_index "0" = Some 0%N
  /\ array_index "4294967295" = None /\ array_index "4294967294" = Some 4294967294%N.
Proof. vm_compute. repeat split; reflexivity. Qed.

(** ** Strings *)

Lemma append_nil_r (s : string) : s ++ "" = s.
Proof. induction s as [|c s IH]; simpl; [reflexivity | now rewrite IH]. Qed.

Lemma append_assoc (a b c : string) : (a ++ b) ++ c = a ++ b ++ c.
Proof. induction a as [|x a IH]; simpl; [reflexivity | now rewrite IH]. Qed.

Lemma length_append (a b : string) :
  String.length (a ++ b) = String.length a + String.length b.
Proof. induction a as [|x a IH]; simpl; [reflexivity | now rewrite IH]. Qed.

Lemma substring_all (s : string) : String.substring 0 (String.length s) s = s.
Proof. induction s as [|c s IH]; simpl; [reflexivity | now rewrite IH]. Qed.

Lemma substring_prefix (a b : string) :
  String.substring 0 (String.length a) (a ++ b) = a.
Proof.
  induction a as [|x a IH]; simpl.
  - now destruct b.
  - now rewrite IH.
Qed.

Lemma substring_suffix (a b : string) (n : nat) :
  String.substring (String.length a) n (a ++ b) = String.substring 0 n b.
Proof. induction a as [|x a IH]; simpl; [reflexivity | exact IH]. Qed.

(** A string is its first [n] characters followed by the rest. *)
Lemma substring_split (s : string) (n : nat) :
  n <= String.length s ->
  s = String.substring 0 n s ++ String.substring n (String.length s - n) s.
Proof.
  revert n. induction s as [|c s IH]; intros n Hn; simpl in *.
  - assert (n = 0) by lia. subst. reflexivity.
  - destruct n as [|n]; simpl.
    + now rewrite substring_all.
    + rewrite <- IH by lia. reflexivity.
Qed.

(** ** The trailing slash *)

Lemma String_substr_last (h : string) (c : string) :
  String.length c = 1 ->
  String_substr (h ++ c) (Z.of_nat (String.length (h ++ c)) - 1) = c.
Proof.
  intros Hc. unfold String_substr. rewrite length_append, Hc.
  replace (Z.of_nat (String.length h + 1) - 1)%Z with (Z.of_nat (String.length h)) by lia.
  destruct (Z.ltb_spec (Z.of_nat (String.length h)) 0) as [H|_]; [lia|].
  rewrite Z.min_l by lia. rewrite Nat2Z.id.
  replace (Z.to_nat (Z.of_nat (String.length h + 1) - Z.of_nat (String.length h))) with 1 by lia.
  rewrite substring_suffix. rewrite <- Hc. apply substring_all.
Qed.

Lemma String_substring_init (h c : string) :
  String_substring (h ++ c) 0 (Z.of_nat (String.length (h ++ c)) - Z.of_nat (String.length c)) = h.
Proof.
  unfold String_substring. rewrite length_append.
  set (n := String.length h). set (m := String.length c).
  replace (Z.of_nat (n + m) - Z.of_nat m)%Z with (Z.of_nat n) by lia.
  rewrite (Z.max_l 0 0) by lia. rewrite (Z.min_l 0) by lia.
  rewrite (Z.max_l (Z.of_nat n)) by lia. rewrite (Z.min_l (Z.of_nat n)) by lia.
  rewrite Z.min_l by lia. rewrite Z.max_r by lia.
  rewrite Z.sub_0_r, Nat2Z.id. apply substring_prefix.
Qed.

Lemma stripSlash_slash (h : string) : stripSlash (h ++ "/") = h.
Proof.
  unfold stripSlash. rewrite (String_substr_last h "/") by reflexivity.
  simpl (_ =? _). exact (String_substring_init h "/").
Qed.

(** When the test of line 50 succeeds, the host does end in a slash. *)
Lemma String_substr_last_inv (host : string) :
  String_substr host (Z.of_nat (String.length host) - 1) = "/" ->
  exists h, host = h ++ "/".
Proof.
  unfold String_substr. set (len := String.length host).
  destruct (Z.ltb_spec (Z.of_nat len - 1) 0) as [Hneg|Hpos].
  - assert (Hlen : len = 0) by lia. destruct host; [|discriminate Hlen].
    simpl. discriminate.
  - rewrite Z.min_l by lia.
    replace (Z.to_nat (Z.of_nat len - (Z.of_nat len - 1))) with (len - (len - 1)) by lia.
    replace (Z.to_nat (Z.of_nat len - 1)) with (len - 1) by lia.
    intros H. exists (String.substring 0 (len - 1) host).
    rewrite <- H. subst len. apply substring_split. lia.
Qed.

Lemma stripSlash_other (host : string) :
  (forall h, host <> h ++ "/") -> stripSlash host = host.
Proof.
  intros H. unfold stripSlash.
  destruct (String.eqb_spec (String_substr host (Z.of_nat (String.length host) - 1)) "/")
    as [E|_]; [|reflexivity].
  destruct (String_substr_last_inv host E) as [h Hh]. now elim (H h).
Qed.

(** ** The URL builder *)

Lemma strict_eq_num_true (v : value) (n : Z) :
  strict_eq_num v n = true <-> v = VNum n.
Proof.
  destruct v; simpl; try (split; [discriminate | intros H; discriminate H]).
  rewrite Z.eqb_eq. split; [now intros -> | now intros [= ->]].
Qed.

Lemma strict_eq_num_false (v : value) (n : Z) :
  strict_eq_num v n = false <-> v <> VNum n.
Proof.
  rewrite <- strict_eq_num_true. destruct (strict_eq_num v n); split; congruence.
Qed.

Lemma urlParam_empty : urlParam (VObj []) = Ok "?".
Proof. reflexivity. Qed.

Lemma urlParam_absent : urlParam VUndefined = Ok "".
Proof. reflexivity. Qed.

Section UrlBuilder.

Variables PROXY NODE : Z.
Variable env : Env.

(** C8. The host selected for the service loses one trailing slash when it
    has one, and is left as it is otherwise, before the URL is put
    together; a host that ends in two slashes keeps one of them. *)
Theorem getHost_strips_one_slash
    (route query service apiVersion : value) (selected : string) :
  selectHost PROXY NODE env service = Ok selected ->
  getHost PROXY NODE env route query service apiVersion =
    (host <- appendService PROXY env (stripSlash selected) service apiVersion ;;
     param <- urlParam query ;;
     path <- ToString route ;;
     Ok (host ++ "/" ++ path ++ param))
  /\ (forall h, selected = h ++ "/" -> stripSlash selected = h)
  /\ ((forall h, selected <> h ++ "/") -> stripSlash selected = selected)
  /\ (forall h, selected = h ++ "//" -> stripSlash selected = h ++ "/").
Proof.
  intros Hsel. repeat split.
  - unfold getHost. rewrite Hsel. reflexivity.
  - intros h ->. apply stripSlash_slash.
  - apply stripSlash_other.
  - intros h ->. change "//" with ("/" ++ "/"). rewrite <- append_assoc.
    apply stripSlash_slash.
Qed.

(** C7. The port taken from the environment and the segment of the API
    version are appended to the host exactly when the service argument is
    [PROXY]; with any other service, [NODE] among them, the host goes
    into the URL as it is. *)
Theorem getHost_port_and_version_iff_PROXY
    (route query service apiVersion : value) (selected : string) :
  selectHost PROXY NODE env service = Ok selected ->
  (service = VNum PROXY ->
     getHost PROXY NODE env route query service apiVersion =
       (version <- ToString apiVersion ;;
        param <- urlParam query ;;
        path <- ToString route ;;
        Ok ((stripSlash selected
             ++ match DEFAULT_API_PORT env with
                | Some port => if port =? "" then "" else ":" ++ port
                | None => ""
                end
             ++ "/" ++ version) ++ "/" ++ path ++ param)))
  /\ (service <> VNum PROXY ->
        getHost PROXY NODE env route query service apiVersion =
          (param <- urlParam query ;;
           path <- ToString route ;;
           Ok (stripSlash selected ++ "/" ++ path ++ param)))
  /\ (PROXY <> NODE -> service = VNum NODE ->
        getHost PROXY NODE env route query service apiVersion =
          (param <- urlParam query ;;
           path <- ToString route ;;
           Ok (stripSlash selected ++ "/" ++ path ++ param))).
Proof.
  intros Hsel.
  assert (Hother : service <> VNum PROXY ->
            getHost PROXY NODE env route query service apiVersion =
              (param <- urlParam query ;;
               path <- ToString route ;;
               Ok (stripSlash selected ++ "/" ++ path ++ param))).
  { intros Hne. apply strict_eq_num_false in Hne.
    unfold getHost, appendService. rewrite Hsel, Hne. reflexivity. }
  split; [|split].
  - intros ->. unfold getHost, appendService. rewrite Hsel. simpl.
    rewrite Z.eqb_refl. unfold or_else.
    destruct (DEFAULT_API_PORT env) as [port|]; simpl.
    + destruct (String.eqb_spec port "") as [->|Hport]; simpl.
      * destruct (ToString apiVersion); reflexivity.
      * apply String.eqb_neq in Hport. rewrite Hport. simpl.
        destruct (ToString apiVersion); reflexivity.
    + destruct (ToString apiVersion); reflexivity.
  - exact Hother.
  - intros Hne ->. apply Hother. intros [= E]. now elim Hne.
Qed.

(** C10. A query object without keys still makes the builder append the
    prefix: the URL is the one built without a query followed by a bare
    question mark.  Without a query nothing is appended, and with a query
    object the parameter always starts with the question mark. *)
Theorem getHost_empty_query (route service apiVersion : value) :
  getHost PROXY NODE env route (VObj []) service apiVersion =
    (base <- getHost PROXY NODE env route VUndefined service apiVersion ;;
     Ok (base ++ "?"))
  /\ urlParam (VObj []) = Ok "?"
  /\ urlParam VUndefined = Ok ""
  /\ (forall q : obj,
        match urlParam (VObj q) with
        | Ok param => String.prefix "?" param = true
        | Throw _ => True
        end).
Proof.
  split; [|split; [reflexivity|split; [reflexivity|]]].
  - unfold getHost. rewrite urlParam_empty, urlParam_absent.
    destruct (selectHost PROXY NODE env service) as [host|e]; simpl; [|reflexivity].
    destruct (appendService PROXY env (stripSlash host) service apiVersion)
      as [host'|e]; simpl; [|reflexivity].
    destruct (ToString route) as [path|e]; simpl; [|reflexivity].
    now rewrite append_nil_r, !append_assoc.
  - intros q. unfold urlParam. simpl truthy. cbv iota.
    destruct (buildUrlQuery (VObj q)) as [s|e]; simpl; [|exact I].
    now destruct s.
Qed.

End UrlBuilder.

(** ** The query string *)

(** The array indices come out in ascending numeric order. *)
Lemma insert_index_sorted (e : N * string) (l : list (N * string)) :
  Sorted (fun a b => (fst a <= fst b)%N) l ->
  Sorted (fun a b => (fst a <= fst b)%N) (insert_index e l).
Proof.
  induction 1 as [|e' l Hl IH Hhd]; simpl.
  - repeat constructor.
  - destruct (N.leb_spec (fst e) (fst e')) as [Hle|Hgt].
    + constructor; [now constructor | now constructor].
    + constructor; [exact IH|].
      destruct l as [|e'' l]; simpl.
      * constructor. lia.
      * destruct (N.leb_spec (fst e) (fst e'')); constructor; [lia|].
        now inversion Hhd.
Qed.

Lemma sort_indices_sorted (l : list (N * string)) :
  Sorted (fun a b => (fst a <= fst b)%N) (sort_indices l).
Proof.
  induction l as [|e l IH]; simpl; [constructor | now apply insert_index_sorted].
Qed.

Lemma index_keys_none (ks : list string) :
  Forall (fun k => is_array_index k = false) ks -> index_keys ks = [].
Proof.
  induction 1 as [|k ks Hk _ IH]; simpl; [reflexivity|].
  unfold is_array_index in Hk. destruct (array_index k); [discriminate | exact IH].
Qed.

Lemma filter_other_keys (ks : list string) :
  Forall (fun k => is_array_index k = false) ks ->
  filter (fun k => negb (is_array_index k)) ks = ks.
Proof.
  induction 1 as [|k ks Hk _ IH]; simpl; [reflexivity|].
  rewrite Hk. simpl. now rewrite IH.
Qed.

(** Without array indices among the keys, an object lists its keys in the
    order they were created. *)
Lemma own_property_keys_creation_order (q : obj) :
  Forall (fun kv => is_array_index (fst kv) = false) q ->
  own_property_keys q = map fst q.
Proof.
  intros H. assert (H' : Forall (fun k => is_array_index k = false) (map fst q)).
  { rewrite Forall_map. exact H. }
  unfold own_property_keys. rewrite (index_keys_none _ H'), (filter_other_keys _ H').
  reflexivity.
Qed.

Lemma lookup_In (q : obj) (k : string) (v : value) :
  NoDup (map fst q) -> In (k, v) q -> lookup k q = Some v.
Proof.
  induction q as [|[k' v'] q IH]; simpl; intros Hnd Hin; [contradiction|].
  inversion Hnd as [|? ? Hnotin Hnd']; subst.
  destruct Hin as [[= -> ->]|Hin].
  - now rewrite String.eqb_refl.
  - destruct (String.eqb_spec k k') as [->|_].
    + elim Hnotin. change k' with (fst (k', v)). now apply in_map.
    + now apply IH.
Qed.

Lemma buildUrlQuery_pairs (q l : obj) :
  (forall kv, In kv l ->
     lookup (fst kv) q = Some (snd kv) /\ ToString (snd kv) = Ok (text_of (snd kv))) ->
  fold_right
    (fun key rest =>
       v <- ToString (own_member (VObj q) key) ;;
       l <- rest ;;
       Ok ((key ++ "=" ++ v) :: l))
    (Ok []) (map fst l)
  = Ok (map pair_text l).
Proof.
  induction l as [|[k v] l IH]; intros H; [reflexivity|].
  cbn [map fst fold_right]. rewrite IH by (intros kv Hin; apply H; now right).
  destruct (H (k, v) (or_introl eq_refl)) as [Hk Hv]. simpl in Hk, Hv.
  unfold own_member. rewrite Hk, Hv. reflexivity.
Qed.

Lemma buildUrlQuery_creation_order (q : obj) :
  NoDup (map fst q) ->
  Forall (fun kv => is_array_index (fst kv) = false) q ->
  Forall (fun kv => ToString (snd kv) = Ok (text_of (snd kv))) q ->
  buildUrlQuery (VObj q) = Ok (join "&" (map pair_text q)).
Proof.
  intros Hnd Hidx Hconv. unfold buildUrlQuery. cbn [Object_keys bind].
  rewrite (own_property_keys_creation_order q Hidx).
  rewrite (buildUrlQuery_pairs q q); [reflexivity|].
  intros [k v] Hin. split.
  - now apply lookup_In.
  - rewrite Forall_forall in Hconv. exact (Hconv _ Hin).
Qed.

Section QueryString.

Variables PROXY NODE : Z.
Variable env : Env.

(** C6, as amended. For a query object with no array index among its
    keys, whose values all have a text and show no number but safe
    integers, the builder appends a question mark followed by the
    [key=value] pairs in the order the keys were inserted, joined by [&]; a
    string value is taken as it is, so that nothing is encoded. *)
Theorem getHost_query_creation_order
    (route service apiVersion : value) (q : obj) :
  NoDup (map fst q) ->
  Forall (fun kv => is_array_index (fst kv) = false) q ->
  Forall (fun kv => ToString (snd kv) = Ok (text_of (snd kv))) q ->
  Forall (fun kv => safe_integers (snd kv) = true) q ->
  urlParam (VObj q) = Ok (insertion_order_query q)
  /\ getHost PROXY NODE env route (VObj q) service apiVersion =
       (base <- getHost PROXY NODE env route VUndefined service apiVersion ;;
        Ok (base ++ insertion_order_query q))
  /\ (forall k s, pair_text (k, VStr s) = k ++ "=" ++ s).
Proof.
  intros Hnd Hidx Hconv _.
  assert (Hparam : urlParam (VObj q) = Ok (insertion_order_query q)).
  { unfold urlParam. simpl truthy. cbv iota.
    now rewrite (buildUrlQuery_creation_order q Hnd Hidx Hconv). }
  split; [exact Hparam|split; [|reflexivity]].
  unfold getHost. rewrite Hparam, urlParam_absent.
  destruct (selectHost PROXY NODE env service) as [host|e]; simpl; [|reflexivity].
  destruct (appendService PROXY env (stripSlash host) service apiVersion)
    as [host'|e]; simpl; [|reflexivity].
  destruct (ToString route) as [path|e]; simpl; [|reflexivity].
  now rewrite append_nil_r, !append_assoc.
Qed.

End QueryString.

(** ** The props resolver *)

(** No key of [IProps] is a member of [Object.prototype]. *)
Lemma key_name_not_inherited (name : IPropsKey) :
  ~ In (key_name name) Object_prototype_keys.
Proof. destruct name; simpl; intuition discriminate. Qed.

Section Resolver.

Variable PROXY : Z.
Variable env : Env.

(** C1. Reading the resolved descriptor at a key gives the caller's value
    when the descriptor has the key, the default when it does not ([/]
    for the route, [PROXY] for the service, the version of the
    environment or [v1.0], 60 for the refresh time), and [undefined] for
    the keys that neither has: [query] and [body]. *)
Theorem getProps_read_through (props : obj) (name : IPropsKey) :
  getProps PROXY env props name =
    match lookup (key_name name) props with
    | Some v => v
    | None =>
        match name with
        | Route => VStr "/"
        | ServiceKey => VNum PROXY
        | ApiVersion => VStr (or_else (DEFAULT_API_VERSION env) "v1.0")
        | RefreshTime => VNum 60
        | Query | Body => VUndefined
        end
    end.
Proof.
  unfold getProps, get, key_in, key_get, has_own.
  destruct (lookup (key_name name) props) as [v|]; [reflexivity|].
  destruct name; reflexivity.
Qed.

(** C9. A key the descriptor holds with the value [undefined] counts as
    set: the resolved descriptor reads [undefined] there, and not the
    default, which is never [undefined]. *)
Theorem getProps_explicit_undefined (props : obj) (name : IPropsKey) :
  lookup (key_name name) props = Some VUndefined ->
  getProps PROXY env props name = VUndefined
  /\ (key_in name (defaultValues PROXY env) = true ->
      key_get (defaultValues PROXY env) name <> VUndefined).
Proof.
  intros H. split.
  - unfold getProps, get, key_in, key_get, has_own. now rewrite H.
  - destruct name; simpl; discriminate.
Qed.

End Resolver.

(** ** The executors *)

Lemma later_0 {A : Type} (p : promise A) : later 0 p = p.
Proof. now destruct p. Qed.

Section Executors.

Variables PROXY NODE : Z.
Variable env : Env.
Variable fetch : string -> RequestInit -> promise Response.
Variable JSON_stringify : value -> result value.

Local Abbreviation resolved props := (getProps PROXY env props).
Local Abbreviation url_of props :=
  (getHost PROXY NODE env (resolved props Route) (resolved props Query)
     (resolved props ServiceKey) (resolved props ApiVersion)).
Local Abbreviation plain method :=
  {| init_method := Method_toString method;
     init_headers := json_headers;
     init_body := None |}.
Local Abbreviation carrying method payload :=
  {| init_method := Method_toString method;
     init_headers := json_headers;
     init_body := Some payload |}.

(** C2. When the HTTP call answers with a response whose status is a
    failure and whose body parses as JSON, each of the three executors
    resolves to the envelope that carries the [error] member of the parsed
    body. *)
Theorem executors_failure_envelope
    (props : obj) (method : Method) (url : string) (payload : value)
    (t t' : N) (response : Response) (parsed error : value) :
  url_of props = Ok url ->
  JSON_stringify (resolved props Body) = Ok payload ->
  fetch url (plain method) = Settled t (Ok response) ->
  fetch url (carrying method payload) = Settled t (Ok response) ->
  ok response = false ->
  json response = Settled t' (Ok parsed) ->
  get_error parsed = Ok error ->
  withoutBody PROXY NODE env fetch props method
    = Settled (t + t') (Ok (failure error))
  /\ withBody PROXY NODE env fetch JSON_stringify props method
    = Settled (t + t') (Ok (failure error))
  /\ withText PROXY NODE env fetch props method
    = Settled (t + t') (Ok (failure error)).
Proof.
  intros Hurl Hbody Hplain Hcarry Hok Hjson Herror.
  unfold withoutBody, withBody, withText.
  rewrite Hurl, Hbody. cbn [sync await later].
  rewrite Hplain, Hcarry. cbn [await]. rewrite Hok. cbn [negb].
  rewrite Hjson. cbn [await]. rewrite Herror.
  repeat split; simpl; f_equal; lia.
Qed.

(** C4. When the HTTP call answers with a response whose status is a
    success, the executors without and with a body take up the promise of
    [response.json()] and the text executor that of [response.text()]:
    what the caller receives is the parsed body, or the text, itself. *)
Theorem executors_success_verbatim
    (props : obj) (method : Method) (url : string) (payload : value)
    (t : N) (response : Response) :
  url_of props = Ok url ->
  JSON_stringify (resolved props Body) = Ok payload ->
  fetch url (plain method) = Settled t (Ok response) ->
  fetch url (carrying method payload) = Settled t (Ok response) ->
  ok response = true ->
  (withoutBody PROXY NODE env fetch props method = later t (json response)
   /\ withBody PROXY NODE env fetch JSON_stringify props method
      = later t (json response)
   /\ withText PROXY NODE env fetch props method
      = later t (promise_map VStr (text response)))
  /\ (forall t' v, json response = Settled t' (Ok v) ->
        withoutBody PROXY NODE env fetch props method = Settled (t + t') (Ok v)
        /\ withBody PROXY NODE env fetch JSON_stringify props method
           = Settled (t + t') (Ok v))
  /\ (forall t' s, text response = Settled t' (Ok s) ->
        withText PROXY NODE env fetch props method
          = Settled (t + t') (Ok (VStr s))).
Proof.
  intros Hurl Hbody Hplain Hcarry Hok.
  assert (H : withoutBody PROXY NODE env fetch props method = later t (json response)
    /\ withBody PROXY NODE env fetch JSON_stringify props method
       = later t (json response)
    /\ withText PROXY NODE env fetch props method
       = later t (promise_map VStr (text response))).
  { unfold withoutBody, withBody, withText.
    rewrite Hurl, Hbody. cbn [sync await later].
    rewrite Hplain, Hcarry. cbn [await]. rewrite Hok. cbn [negb].
    unfold Return, resolve, async. cbn [later try_catch await].
    replace (0 + (0 + (t + 0)))%N with t by lia.
    replace (0 + (t + 0))%N with t by lia. repeat split. }
  destruct H as (H1 & H2 & H3). split; [now repeat split|]. split.
  - intros t' v Hv. rewrite H1, H2, Hv. now split.
  - intros t' s Hs. rewrite H3, Hs. reflexivity.
Qed.

(** C5. The racer settles as the operation does, and when it does, if the
    operation settles before the timeout has elapsed; if the timeout
    elapses first, or the operation stays pending, it resolves at that
    moment to the envelope [{ data: null, error: "Fetch timeout", code:
    "internal_error" }].  Left out, the timeout is 10000.  A call of the
    facade whose HTTP call stays pending resolves to the envelope at time
    10000.  The timeout is one the timer takes as it is, at most
    2147483647; nothing here depends on how [race] decides between two
    promises that settle at the same instant. *)
Theorem withTimeout_first_to_settle
    (props : obj) (url : string) (payload : value) :
  url_of props = Ok url ->
  JSON_stringify (resolved props Body) = Ok payload ->
  (forall init, fetch url init = Never) ->
  (api_get PROXY NODE env fetch props
     = Settled 10000
         (Ok (VObj [("data", VNull); ("error", VStr "Fetch timeout");
                    ("code", VStr "internal_error")]))
   /\ api_post PROXY NODE env fetch JSON_stringify props
      = Settled 10000
          (Ok (VObj [("data", VNull); ("error", VStr "Fetch timeout");
                     ("code", VStr "internal_error")]))
   /\ api_text PROXY NODE env fetch props
      = Settled 10000
          (Ok (VObj [("data", VNull); ("error", VStr "Fetch timeout");
                     ("code", VStr "internal_error")])))
  /\ (forall (p : promise value) (timeout : option N),
        let ms := match timeout with Some ms => ms | None => 10000%N end in
        (ms <= 2147483647)%N ->
        (forall t r, p = Settled t r -> (t < ms)%N ->
           withTimeout p timeout = Settled t r)
        /\ (forall t r, p = Settled t r -> (ms < t)%N ->
              withTimeout p timeout
              = Settled ms
                  (Ok (VObj [("data", VNull); ("error", VStr "Fetch timeout");
                             ("code", VStr "internal_error")])))
        /\ (p = Never ->
            withTimeout p timeout
            = Settled ms
                (Ok (VObj [("data", VNull); ("error", VStr "Fetch timeout");
                           ("code", VStr "internal_error")])))).
Proof.
  intros Hurl Hbody Hfetch. split.
  - unfold api_get, api_post, api_text, withoutBody, withBody, withText.
    rewrite Hurl, Hbody. cbn [sync await later]. rewrite !Hfetch.
    repeat split.
  - intros p timeout ms _. unfold withTimeout. fold ms.
    unfold async, Return, resolve, after. cbn [await later].
    repeat split.
    + intros t r -> Hlt. cbn [race].
      rewrite (proj2 (N.leb_le t ms) (N.lt_le_incl _ _ Hlt)).
      now rewrite later_0.
    + intros t r -> Hlt. cbn [race]. apply N.leb_gt in Hlt. rewrite Hlt.
      reflexivity.
    + intros ->. reflexivity.
Qed.

(** What the [catch] does handle: a URL that cannot be built, a body that
    cannot be serialised, a request that fails, and, under a failure
    status, a body that does not parse. *)
Lemma withoutBody_catches
    (props : obj) (method : Method) (url : string) (t t' : N)
    (response : Response) (e : value) :
  (url_of props = Throw e ->
     withoutBody PROXY NODE env fetch props method = Settled 0 (Ok (failure e)))
  /\ (url_of props = Ok url ->
      fetch url (plain method) = Settled t (Throw e) ->
        withoutBody PROXY NODE env fetch props method = Settled t (Ok (failure e)))
  /\ (url_of props = Ok url ->
      fetch url (plain method) = Settled t (Ok response) ->
      ok response = false ->
      json response = Settled t' (Throw e) ->
        withoutBody PROXY NODE env fetch props method
          = Settled (t + t') (Ok (failure e))).
Proof.
  unfold withoutBody. repeat split.
  - intros ->. reflexivity.
  - intros -> Hfetch. cbn [sync await later]. rewrite Hfetch. simpl.
    f_equal. lia.
  - intros -> Hfetch Hok Hjson. cbn [sync await later].
    rewrite Hfetch. cbn [await]. rewrite Hok. cbn [negb]. rewrite Hjson.
    simpl. f_equal. lia.
Qed.

Lemma withBody_catches
    (props : obj) (method : Method) (url : string) (payload : value) (t t' : N)
    (response : Response) (e : value) :
  (url_of props = Throw e ->
     withBody PROXY NODE env fetch JSON_stringify props method
       = Settled 0 (Ok (failure e)))
  /\ (url_of props = Ok url ->
      JSON_stringify (resolved props Body) = Throw e ->
        withBody PROXY NODE env fetch JSON_stringify props method
          = Settled 0 (Ok (failure e)))
  /\ (url_of props = Ok url ->
      JSON_stringify (resolved props Body) = Ok payload ->
      fetch url (carrying method payload) = Settled t (Throw e) ->
        withBody PROXY NODE env fetch JSON_stringify props method
          = Settled t (Ok (failure e)))
  /\ (url_of props = Ok url ->
      JSON_stringify (resolved props Body) = Ok payload ->
      fetch url (carrying method payload) = Settled t (Ok response) ->
      ok response = false ->
      json response = Settled t' (Throw e) ->
        withBody PROXY NODE env fetch JSON_stringify props method
          = Settled (t + t') (Ok (failure e))).
Proof.
  unfold withBody. repeat split.
  - intros ->. reflexivity.
  - intros -> ->. reflexivity.
  - intros -> -> Hfetch. cbn [sync await later]. rewrite Hfetch. simpl.
    f_equal. lia.
  - intros -> -> Hfetch Hok Hjson. cbn [sync await later].
    rewrite Hfetch. cbn [await]. rewrite Hok. cbn [negb]. rewrite Hjson.
    simpl. f_equal. lia.
Qed.

Lemma withText_catches
    (props : obj) (method : Method) (url : string) (t t' : N)
    (response : Response) (e : value) :
  (url_of props = Throw e ->
     withText PROXY NODE env fetch props method = Settled 0 (Ok (failure e)))
  /\ (url_of props = Ok url ->
      fetch url (plain method) = Settled t (Throw e) ->
        withText PROXY NODE env fetch props method = Settled t (Ok (failure e)))
  /\ (url_of props = Ok url ->
      fetch url (plain method) = Settled t (Ok response) ->
      ok response = false ->
      json response = Settled t' (Throw e) ->
        withText PROXY NODE env fetch props method
          = Settled (t + t') (Ok (failure e))).
Proof.
  unfold withText. repeat split.
  - intros ->. reflexivity.
  - intros -> Hfetch. cbn [sync await later]. rewrite Hfetch. simpl.
    f_equal. lia.
  - intros -> Hfetch Hok Hjson. cbn [sync await later].
    rewrite Hfetch. cbn [await]. rewrite Hok. cbn [negb]. rewrite Hjson.
    simpl. f_equal. lia.
Qed.

(** The [catch] of an executor handles whatever is thrown up to the
    [return]: the only rejection left is that of the promise which the
    success branch returns without awaiting it. *)
Lemma withoutBody_rejects_only_unawaited
    (props : obj) (method : Method) (t : N) (e : value) :
  withoutBody PROXY NODE env fetch props method = Settled t (Throw e) ->
  exists url t0 response t1,
    url_of props = Ok url
    /\ fetch url (plain method) = Settled t0 (Ok response)
    /\ ok response = true
    /\ json response = Settled t1 (Throw e)
    /\ t = (t0 + t1)%N.
Proof.
  unfold withoutBody.
  destruct (url_of props) as [url|e0]; cbn; [|discriminate].
  destruct (fetch url (plain method)) as [t0 [response|e1]|] eqn:Hfetch;
    cbn; try discriminate.
  destruct (ok response) eqn:Hok; cbn.
  - destruct (json response) as [t1 [v|e2]|] eqn:Hjson; cbn; try discriminate.
    intros [= <- <-]. exists url, t0, response, t1.
    repeat split; trivial. lia.
  - destruct (json response) as [t1 [v|e2]|]; cbn; try discriminate.
    destruct (get_error v); cbn; discriminate.
Qed.

Lemma withBody_rejects_only_unawaited
    (props : obj) (method : Method) (t : N) (e : value) :
  withBody PROXY NODE env fetch JSON_stringify props method = Settled t (Throw e) ->
  exists url payload t0 response t1,
    url_of props = Ok url
    /\ JSON_stringify (resolved props Body) = Ok payload
    /\ fetch url (carrying method payload) = Settled t0 (Ok response)
    /\ ok response = true
    /\ json response = Settled t1 (Throw e)
    /\ t = (t0 + t1)%N.
Proof.
  unfold withBody.
  destruct (url_of props) as [url|e0]; cbn; [|discriminate].
  destruct (JSON_stringify (resolved props Body)) as [payload|e0]; cbn; [|discriminate].
  destruct (fetch url (carrying method payload)) as [t0 [response|e1]|] eqn:Hfetch;
    cbn; try discriminate.
  destruct (ok response) eqn:Hok; cbn.
  - destruct (json response) as [t1 [v|e2]|] eqn:Hjson; cbn; try discriminate.
    intros [= <- <-]. exists url, payload, t0, response, t1.
    repeat split; trivial. lia.
  - destruct (json response) as [t1 [v|e2]|]; cbn; try discriminate.
    destruct (get_error v); cbn; discriminate.
Qed.

Lemma withText_rejects_only_unawaited
    (props : obj) (method : Method) (t : N) (e : value) :
  withText PROXY NODE env fetch props method = Settled t (Throw e) ->
  exists url t0 response t1,
    url_of props = Ok url
    /\ fetch url (plain method) = Settled t0 (Ok response)
    /\ ok response = true
    /\ text response = Settled t1 (Throw e)
    /\ t = (t0 + t1)%N.
Proof.
  unfold withText.
  destruct (url_of props) as [url|e0]; cbn; [|discriminate].
  destruct (fetch url (plain method)) as [t0 [response|e1]|] eqn:Hfetch;
    cbn; try discriminate.
  destruct (ok response) eqn:Hok; cbn.
  - destruct (text response) as [t1 [v|e2]|] eqn:Htext; cbn; try discriminate.
    intros [= <- <-]. exists url, t0, response, t1.
    repeat split; trivial. lia.
  - destruct (json response) as [t1 [v|e2]|]; cbn; try discriminate.
    destruct (get_error v); cbn; discriminate.
Qed.

End Executors.

(* ------------------------------------------------------------------ *)
(** * The properties at sample inputs *)

Import Sample.

(** C8 at a node host that ends in two slashes: one of them stays. *)
Lemma getHost_strips_one_slash_witness :
  selectHost 0 1 slash_env (VNum 1) = Ok "https://node.example//"
  /\ getHost 0 1 slash_env (VStr "status") VUndefined (VNum 1) VUndefined
     = Ok "https://node.example//status"
  /\ stripSlash "https://node.example//" = "https://node.example/".
Proof.
  split; [reflexivity|].
  destruct (getHost_strips_one_slash 0 1 slash_env
              (VStr "status") VUndefined (VNum 1) VUndefined
              "https://node.example//" eq_refl) as (Hurl & _ & _ & Htwo).
  split; [rewrite Hurl; reflexivity|].
  apply (Htwo "https://node.example"). reflexivity.
Defined.

(** C7 at the proxy, with port and version, and at the node, without. *)
Lemma getHost_port_and_version_iff_PROXY_witness :
  getHost 0 1 slash_env (VStr "assets") VUndefined (VNum 0) (VStr "v1.0")
    = Ok "https://api.example:8080/v1.0/assets"
  /\ getHost 0 1 slash_env (VStr "assets") VUndefined (VNum 1) (VStr "v1.0")
    = Ok "https://node.example//assets".
Proof.
  split.
  - destruct (getHost_port_and_version_iff_PROXY 0 1 slash_env
                (VStr "assets") VUndefined (VNum 0) (VStr "v1.0")
                "https://api.example/" eq_refl) as (Hproxy & _ & _).
    rewrite (Hproxy eq_refl). reflexivity.
  - destruct (getHost_port_and_version_iff_PROXY 0 1 slash_env
                (VStr "assets") VUndefined (VNum 1) (VStr "v1.0")
                "https://node.example//" eq_refl) as (_ & _ & Hnode).
    rewrite (Hnode ltac:(discriminate) eq_refl). reflexivity.
Defined.

(** C6, as amended, at a query whose second value holds characters that an
    encoder would change. *)
Lemma getHost_query_creation_order_witness :
  getHost 0 1 bare_env (VStr "list")
    (VObj [("page", VNum 1); ("q", VStr "a b&c=d")]) (VNum 1) VUndefined
  = Ok "https://node.mainnet.klever.finance/list?page=1&q=a b&c=d".
Proof.
  destruct (getHost_query_creation_order 0 1 bare_env
              (VStr "list") (VNum 1) VUndefined
              [("page", VNum 1); ("q", VStr "a b&c=d")]) as (_ & Hurl & _).
  - repeat constructor; simpl; intuition discriminate.
  - repeat constructor.
  - repeat constructor.
  - repeat constructor.
  - rewrite Hurl. reflexivity.
Defined.

(** C6 as the specification words it fails when a key is an array index:
    the key [1], inserted second, is listed first. *)
Lemma query_insertion_order_counterexample :
  urlParam (VObj [("b", VStr "x"); ("1", VStr "y")]) = Ok "?1=y&b=x"
  /\ insertion_order_query [("b", VStr "x"); ("1", VStr "y")] = "?b=x&1=y"
  /\ getHost 0 1 bare_env (VStr "list")
       (VObj [("b", VStr "x"); ("1", VStr "y")]) (VNum 1) VUndefined
     <> Ok ("https://node.mainnet.klever.finance/list"
            ++ insertion_order_query [("b", VStr "x"); ("1", VStr "y")]).
Proof.
  split; [reflexivity|]. split; [reflexivity|].
  vm_compute. discriminate.
Qed.

(** C9 at the descriptor [{ route: "/x", apiVersion: undefined }]. *)
Lemma getProps_explicit_undefined_witness :
  getProps 0 bare_env [("route", VStr "/x"); ("apiVersion", VUndefined)] ApiVersion
    = VUndefined
  /\ key_get (defaultValues 0 bare_env) ApiVersion = VStr "v1.0".
Proof.
  split; [|reflexivity].
  apply (getProps_explicit_undefined 0 bare_env
           [("route", VStr "/x"); ("apiVersion", VUndefined)] ApiVersion).
  reflexivity.
Defined.

(** C2 at a mock call that answers with a failure status and the body
    [{ error: bad }]. *)
Lemma executors_failure_envelope_witness :
  withoutBody 0 1 bare_env (answering bad_response) status_props GET
    = Settled 123 (Ok (VObj [("data", VNull); ("error", VStr "bad");
                             ("code", VStr "internal_error")]))
  /\ withBody 0 1 bare_env (answering bad_response) stringify status_props POST
    = Settled 123 (Ok (failure (VStr "bad")))
  /\ withText 0 1 bare_env (answering bad_response) status_props GET
    = Settled 123 (Ok (failure (VStr "bad"))).
Proof.
  split; [|split].
  - apply (executors_failure_envelope 0 1 bare_env (answering bad_response) stringify
             status_props GET "https://api.mainnet.klever.finance/v1.0/status"
             VUndefined 120 3 bad_response (VObj [("error", VStr "bad")]) (VStr "bad"));
      reflexivity.
  - apply (executors_failure_envelope 0 1 bare_env (answering bad_response) stringify
             status_props POST "https://api.mainnet.klever.finance/v1.0/status"
             VUndefined 120 3 bad_response (VObj [("error", VStr "bad")]) (VStr "bad"));
      reflexivity.
  - apply (executors_failure_envelope 0 1 bare_env (answering bad_response) stringify
             status_props GET "https://api.mainnet.klever.finance/v1.0/status"
             VUndefined 120 3 bad_response (VObj [("error", VStr "bad")]) (VStr "bad"));
      reflexivity.
Defined.

(** C4 at a mock call that answers with a success status and the body
    [{ x: 1 }]. *)
Lemma executors_success_verbatim_witness :
  withoutBody 0 1 bare_env (answering x1_response) status_props GET
    = Settled 123 (Ok (VObj [("x", VNum 1)]))
  /\ withBody 0 1 bare_env (answering x1_response) stringify status_props POST
    = Settled 123 (Ok (VObj [("x", VNum 1)]))
  /\ withText 0 1 bare_env (answering x1_response) status_props GET
    = Settled 123 (Ok (VStr ("{" ++ quoted "x" ++ ":1}"))).
Proof.
  destruct (executors_success_verbatim 0 1 bare_env (answering x1_response) stringify
              status_props GET "https://api.mainnet.klever.finance/v1.0/status"
              VUndefined 120 x1_response eq_refl eq_refl eq_refl eq_refl eq_refl)
    as (_ & Hjson & Htext).
  destruct (executors_success_verbatim 0 1 bare_env (answering x1_response) stringify
              status_props POST "https://api.mainnet.klever.finance/v1.0/status"
              VUndefined 120 x1_response eq_refl eq_refl eq_refl eq_refl eq_refl)
    as (_ & Hjson' & _).
  split; [|split].
  - apply (Hjson 3%N (VObj [("x", VNum 1)])). reflexivity.
  - apply (Hjson' 3%N (VObj [("x", VNum 1)])). reflexivity.
  - apply (Htext 3%N ("{" ++ quoted "x" ++ ":1}")). reflexivity.
Defined.

(** C5 at a mock call that stays pending, and at an operation that settles
    before, and one that settles after, a timeout of 50. *)
Lemma withTimeout_first_to_settle_witness :
  api_get 0 1 bare_env hanging status_props
    = Settled 10000
        (Ok (VObj [("data", VNull); ("error", VStr "Fetch timeout");
                   ("code", VStr "internal_error")]))
  /\ withTimeout (Settled 40 (Ok (VStr "done"))) (Some 50%N) = Settled 40 (Ok (VStr "done"))
  /\ withTimeout (Settled 60 (Ok (VStr "done"))) (Some 50%N)
     = Settled 50
         (Ok (VObj [("data", VNull); ("error", VStr "Fetch timeout");
                    ("code", VStr "internal_error")])).
Proof.
  destruct (withTimeout_first_to_settle 0 1 bare_env hanging stringify status_props
              "https://api.mainnet.klever.finance/v1.0/status" VUndefined
              eq_refl eq_refl (fun _ => eq_refl)) as ((Hget & _ & _) & Hrace).
  split; [exact Hget|]. split.
  - destruct (Hrace (Settled 40 (Ok (VStr "done"))) (Some 50%N)) as (Hfirst & _ & _).
    + discriminate.
    + apply Hfirst; reflexivity.
  - destruct (Hrace (Settled 60 (Ok (VStr "done"))) (Some 50%N)) as (_ & Hlate & _).
    + discriminate.
    + apply (Hlate 60%N (Ok (VStr "done"))); reflexivity.
Defined.

(** C3 fails on the code. A success status with a body that is not JSON:
    [response.json()] is returned without being awaited, so its rejection
    passes by the [catch] and the executor, and the facade after it,
    rejects. *)
Theorem unawaited_json_rejection_escapes :
  withoutBody 0 1 bare_env (answering empty_response) status_props GET
    = Settled 123 (Throw (VError "SyntaxError" "Unexpected end of JSON input"))
  /\ withBody 0 1 bare_env (answering empty_response) stringify status_props POST
    = Settled 123 (Throw (VError "SyntaxError" "Unexpected end of JSON input"))
  /\ api_get 0 1 bare_env (answering empty_response) status_props
    = Settled 123 (Throw (VError "SyntaxError" "Unexpected end of JSON input"))
  /\ api_post 0 1 bare_env (answering empty_response) stringify status_props
    = Settled 123 (Throw (VError "SyntaxError" "Unexpected end of JSON input")).
Proof. repeat split. Qed.


(* ------------------------------------------------------------------ *)
(** * Further properties of the module *)

(** ** The table of hosts *)

Lemma lookup_set_same {A : Type} (k : string) (v : A) (o : list (string * A)) :
  lookup k (set k v o) = Some v.
Proof.
  induction o as [|[k' v'] o IH]; simpl.
  - now rewrite String.eqb_refl.
  - destruct (String.eqb_spec k k') as [->|Hne]; simpl.
    + now rewrite String.eqb_refl.
    + apply String.eqb_neq in Hne. now rewrite Hne.
Qed.

Lemma lookup_set_other {A : Type} (k k' : string) (v : A) (o : list (string * A)) :
  k <> k' -> lookup k (set k' v o) = lookup k o.
Proof.
  intros Hne. induction o as [|[k'' v''] o IH]; simpl.
  - apply String.eqb_neq in Hne. now rewrite Hne.
  - destruct (String.eqb_spec k' k'') as [->|Hne']; simpl.
    + apply String.eqb_neq in Hne. now rewrite Hne.
    + destruct (k =? k''); [reflexivity | exact IH].
Qed.

(** Two numbers with the same decimal text are the same number. *)
Lemma Number_toString_inj (n m : Z) :
  Number_toString n = Number_toString m -> n = m.
Proof.
  unfold Number_toString. intros H. apply DecimalZ.to_int_inj.
  assert (Hnn : forall z, Z.to_int z <> Decimal.Pos Decimal.Nil
                          /\ Z.to_int z <> Decimal.Neg Decimal.Nil).
  { intros [|p|p]; simpl; split; try discriminate;
      intros [= E]; now apply (Unsigned.to_uint_nonnil p). }
  pose proof (NilZero.isi (Z.to_int n) (proj1 (Hnn n)) (proj2 (Hnn n))) as Hn.
  pose proof (NilZero.isi (Z.to_int m) (proj1 (Hnn m)) (proj2 (Hnn m))) as Hm.
  rewrite H in Hn. congruence.
Qed.

(** A number used as the service is looked up under its own decimal text,
    zero included. *)
Lemma service_key_of_number (n : Z) :
  ToString (or_value (VNum n) (VNum 0)) = Ok (Number_toString n).
Proof.
  unfold or_value. simpl. destruct (Z.eqb_spec n 0) as [->|_]; reflexivity.
Qed.

Lemma selectHost_PROXY (PROXY NODE : Z) (env : Env) :
  PROXY <> NODE ->
  selectHost PROXY NODE env (VNum PROXY)
    = Ok (or_else (DEFAULT_API_HOST env) "https://api.mainnet.klever.finance").
Proof.
  intros Hne. unfold selectHost, hostService.
  rewrite service_key_of_number. cbn [bind].
  rewrite lookup_set_other, lookup_set_same; [reflexivity|].
  intros E. apply Number_toString_inj in E. contradiction.
Qed.

Lemma selectHost_NODE (PROXY NODE : Z) (env : Env) :
  selectHost PROXY NODE env (VNum NODE)
    = Ok (or_else (DEFAULT_NODE_HOST env) "https://node.mainnet.klever.finance").
Proof.
  unfold selectHost, hostService. rewrite service_key_of_number. cbn [bind].
  now rewrite lookup_set_same.
Qed.

Lemma selectHost_unknown (PROXY NODE : Z) (env : Env) (n : Z) :
  n <> PROXY -> n <> NODE -> selectHost PROXY NODE env (VNum n) = Throw TypeError.
Proof.
  intros HP HN. unfold selectHost, hostService.
  rewrite service_key_of_number. cbn [bind].
  rewrite !lookup_set_other; [reflexivity| |];
    intros E; apply Number_toString_inj in E; contradiction.
Qed.

Section Further.

Variables PROXY NODE : Z.
Variable env : Env.
Variable fetch : string -> RequestInit -> promise Response.
Variable JSON_stringify : value -> result value.

Local Abbreviation resolved props := (getProps PROXY env props).
Local Abbreviation url_of props :=
  (getHost PROXY NODE env (resolved props Route) (resolved props Query)
     (resolved props ServiceKey) (resolved props ApiVersion)).
Local Abbreviation plain method :=
  {| init_method := Method_toString method;
     init_headers := json_headers;
     init_body := None |}.
Local Abbreviation carrying method payload :=
  {| init_method := Method_toString method;
     init_headers := json_headers;
     init_body := Some payload |}.

(** ** The URL builder on a service that is missing or unknown *)

(** X7. With [undefined] for the service, [getHost] takes the host that the
    table holds under the key 0 and appends neither port nor version,
    whatever [PROXY] is: [service || 0] picks the host, but
    [service === Service.PROXY] compares the argument itself. *)
Theorem getHost_undefined_service (route query apiVersion : value) :
  getHost PROXY NODE env route query VUndefined apiVersion =
    (host <- selectHost PROXY NODE env (VNum 0) ;;
     param <- urlParam query ;;
     path <- ToString route ;;
     Ok (stripSlash host ++ "/" ++ path ++ param)).
Proof.
  unfold getHost, appendService.
  change (selectHost PROXY NODE env VUndefined)
    with (selectHost PROXY NODE env (VNum 0)).
  cbn [strict_eq_num].
  destruct (selectHost PROXY NODE env (VNum 0)); reflexivity.
Qed.

(** X8. A number that is neither [PROXY] nor [NODE] finds no host in the
    table: [getHost] throws a [TypeError], and an executor whose descriptor
    holds such a service resolves at once to the failure envelope that
    carries it, whatever [fetch] would have answered. *)
Theorem unknown_service_fails_before_fetch
    (props : obj) (method : Method) (n : Z) :
  n <> PROXY -> n <> NODE ->
  lookup "service" props = Some (VNum n) ->
  (forall route query apiVersion,
     getHost PROXY NODE env route query (VNum n) apiVersion = Throw TypeError)
  /\ withoutBody PROXY NODE env fetch props method
     = Settled 0 (Ok (failure TypeError))
  /\ withBody PROXY NODE env fetch JSON_stringify props method
     = Settled 0 (Ok (failure TypeError))
  /\ withText PROXY NODE env fetch props method
     = Settled 0 (Ok (failure TypeError)).
Proof.
  intros HP HN Hservice.
  assert (Hthrow : forall route query apiVersion,
            getHost PROXY NODE env route query (VNum n) apiVersion = Throw TypeError).
  { intros. unfold getHost. now rewrite (selectHost_unknown PROXY NODE env n HP HN). }
  assert (Hread : resolved props ServiceKey = VNum n).
  { unfold getProps, get, key_in, key_get, has_own. simpl key_name.
    now rewrite Hservice. }
  split; [exact Hthrow|].
  unfold withoutBody, withBody, withText. rewrite Hread, Hthrow.
  repeat split.
Qed.

(** ** The URL an executor requests *)

(** X9. A descriptor without [service], [apiVersion] and [query] is sent
    to the [PROXY] host, followed by the port of the environment when there
    is one, by the default version and by the route; the route of a
    descriptor that has none is [/], so that its URL ends in two slashes. *)
Theorem request_url_with_defaults (props : obj) (route : string) :
  PROXY <> NODE ->
  lookup "service" props = None ->
  lookup "apiVersion" props = None ->
  lookup "query" props = None ->
  resolved props Route = VStr route ->
  url_of props =
    Ok (stripSlash (or_else (DEFAULT_API_HOST env) "https://api.mainnet.klever.finance")
        ++ match DEFAULT_API_PORT env with
           | Some port => if port =? "" then "" else ":" ++ port
           | None => ""
           end
        ++ "/" ++ or_else (DEFAULT_API_VERSION env) "v1.0"
        ++ "/" ++ route)
  /\ (lookup "route" props = None -> route = "/").
Proof.
  intros Hne Hservice Hversion Hquery Hroute. split.
  - assert (Hs : resolved props ServiceKey = VNum PROXY).
    { unfold getProps, get, key_in, key_get, has_own. simpl key_name.
      now rewrite Hservice. }
    assert (Hv : resolved props ApiVersion
                 = VStr (or_else (DEFAULT_API_VERSION env) "v1.0")).
    { unfold getProps, get, key_in, key_get, has_own. simpl key_name.
      now rewrite Hversion. }
    assert (Hq : resolved props Query = VUndefined).
    { unfold getProps, get, key_in, key_get, has_own. simpl key_name.
      now rewrite Hquery. }
    rewrite Hs, Hv, Hq, Hroute. unfold getHost, appendService.
    rewrite (selectHost_PROXY PROXY NODE env Hne). cbn [bind strict_eq_num].
    rewrite Z.eqb_refl, urlParam_absent. cbn [bind ToString].
    rewrite append_nil_r, !append_assoc. do 2 f_equal.
    unfold or_else. destruct (DEFAULT_API_PORT env) as [port|]; [|reflexivity].
    destruct (String.eqb_spec port "") as [->|Hport]; [reflexivity|].
    apply String.eqb_neq in Hport. now rewrite Hport.
  - intros Hnone. revert Hroute.
    unfold getProps, get, key_in, key_get, has_own. simpl key_name.
    rewrite Hnone. simpl. now intros [= <-].
Qed.

(** ** The resolver *)

(** X11. At a key that has a default, the resolved descriptor reads
    [undefined] only when the descriptor itself holds [undefined] there. *)
Theorem getProps_undefined_only_if_explicit (props : obj) (name : IPropsKey) :
  key_in name (defaultValues PROXY env) = true ->
  resolved props name = VUndefined ->
  lookup (key_name name) props = Some VUndefined.
Proof.
  unfold getProps, get, key_in, key_get, has_own.
  destruct (lookup (key_name name) props) as [v|].
  - now intros _ ->.
  - destruct name; simpl; discriminate.
Qed.

(** ** What the [catch] of an executor handles *)

(** X1. A request that fails, that is a [fetch] whose promise rejects, is
    caught: each executor resolves, at that moment, to the failure
    envelope that carries the value of the rejection. *)
Theorem executors_catch_fetch_rejection
    (props : obj) (method : Method) (url : string) (payload : value)
    (t : N) (e : value) :
  url_of props = Ok url ->
  JSON_stringify (resolved props Body) = Ok payload ->
  fetch url (plain method) = Settled t (Throw e) ->
  fetch url (carrying method payload) = Settled t (Throw e) ->
  withoutBody PROXY NODE env fetch props method = Settled t (Ok (failure e))
  /\ withBody PROXY NODE env fetch JSON_stringify props method
     = Settled t (Ok (failure e))
  /\ withText PROXY NODE env fetch props method = Settled t (Ok (failure e)).
Proof.
  intros Hurl Hbody Hplain Hcarry.
  unfold withoutBody, withBody, withText.
  rewrite Hurl, Hbody. cbn [sync await later]. rewrite Hplain, Hcarry.
  repeat split; simpl; f_equal; lia.
Qed.

(** X2. Under a failure status, a body that [response.json()] cannot parse
    is caught as well, since that call is awaited: the envelope carries
    what the parser threw, for the text executor too. *)
Theorem executors_catch_unparsable_failure_body
    (props : obj) (method : Method) (url : string) (payload : value)
    (t t' : N) (response : Response) (e : value) :
  url_of props = Ok url ->
  JSON_stringify (resolved props Body) = Ok payload ->
  fetch url (plain method) = Settled t (Ok response) ->
  fetch url (carrying method payload) = Settled t (Ok response) ->
  ok response = false ->
  json response = Settled t' (Throw e) ->
  withoutBody PROXY NODE env fetch props method = Settled (t + t') (Ok (failure e))
  /\ withBody PROXY NODE env fetch JSON_stringify props method
     = Settled (t + t') (Ok (failure e))
  /\ withText PROXY NODE env fetch props method
     = Settled (t + t') (Ok (failure e)).
Proof.
  intros Hurl Hbody Hplain Hcarry Hok Hjson.
  unfold withoutBody, withBody, withText.
  rewrite Hurl, Hbody. cbn [sync await later]. rewrite Hplain, Hcarry.
  cbn [await]. rewrite Hok. cbn [negb]. rewrite Hjson.
  repeat split; simpl; f_equal; lia.
Qed.

(** X3. Under a failure status, a body that parses to [null] has no
    [error] member to read: the read throws, and the envelope carries the
    [TypeError] instead of a member of the body. *)
Theorem executors_null_failure_body
    (props : obj) (method : Method) (url : string) (payload : value)
    (t t' : N) (response : Response) :
  url_of props = Ok url ->
  JSON_stringify (resolved props Body) = Ok payload ->
  fetch url (plain method) = Settled t (Ok response) ->
  fetch url (carrying method payload) = Settled t (Ok response) ->
  ok response = false ->
  json response = Settled t' (Ok VNull) ->
  withoutBody PROXY NODE env fetch props method
    = Settled (t + t') (Ok (failure TypeError))
  /\ withBody PROXY NODE env fetch JSON_stringify props method
     = Settled (t + t') (Ok (failure TypeError))
  /\ withText PROXY NODE env fetch props method
     = Settled (t + t') (Ok (failure TypeError)).
Proof.
  intros Hurl Hbody Hplain Hcarry Hok Hjson.
  unfold withoutBody, withBody, withText.
  rewrite Hurl, Hbody. cbn [sync await later]. rewrite Hplain, Hcarry.
  cbn [await]. rewrite Hok. cbn [negb]. rewrite Hjson.
  repeat split; simpl; f_equal; lia.
Qed.

(** ** Rejection and waiting *)

(** X4. As long as [json()] and [text()] of a successful response do not
    reject, no executor rejects: its promise resolves or stays pending. *)
Theorem executors_resolve_when_bodies_read (props : obj) (method : Method) :
  (forall url init t r,
     fetch url init = Settled t (Ok r) -> ok r = true ->
     (forall t' e, json r <> Settled t' (Throw e))
     /\ (forall t' e, text r <> Settled t' (Throw e))) ->
  (forall t e, withoutBody PROXY NODE env fetch props method <> Settled t (Throw e))
  /\ (forall t e, withBody PROXY NODE env fetch JSON_stringify props method
                  <> Settled t (Throw e))
  /\ (forall t e, withText PROXY NODE env fetch props method <> Settled t (Throw e)).
Proof.
  intros Hread. repeat split; intros t e Hrej.
  - apply withoutBody_rejects_only_unawaited in Hrej.
    destruct Hrej as (url & t0 & r & t1 & _ & Hfetch & Hok & Hjson & _).
    exact (proj1 (Hread _ _ _ _ Hfetch Hok) _ _ Hjson).
  - apply withBody_rejects_only_unawaited in Hrej.
    destruct Hrej as (url & payload & t0 & r & t1 & _ & _ & Hfetch & Hok & Hjson & _).
    exact (proj1 (Hread _ _ _ _ Hfetch Hok) _ _ Hjson).
  - apply withText_rejects_only_unawaited in Hrej.
    destruct Hrej as (url & t0 & r & t1 & _ & Hfetch & Hok & Htext & _).
    exact (proj2 (Hread _ _ _ _ Hfetch Hok) _ _ Htext).
Qed.

(** X5. Once the URL is built and the body serialised, an executor settles
    only after its request has: never before [fetch] settles, and not at
    all while [fetch] stays pending.  The executors have no deadline of
    their own. *)
Theorem executors_wait_for_fetch
    (props : obj) (method : Method) (url : string) (payload : value) :
  url_of props = Ok url ->
  JSON_stringify (resolved props Body) = Ok payload ->
  (forall t r, withoutBody PROXY NODE env fetch props method = Settled t r ->
     exists t0 r0, fetch url (plain method) = Settled t0 r0 /\ (t0 <= t)%N)
  /\ (forall t r, withBody PROXY NODE env fetch JSON_stringify props method
                  = Settled t r ->
        exists t0 r0,
          fetch url (carrying method payload) = Settled t0 r0 /\ (t0 <= t)%N)
  /\ (forall t r, withText PROXY NODE env fetch props method = Settled t r ->
        exists t0 r0, fetch url (plain method) = Settled t0 r0 /\ (t0 <= t)%N).
Proof.
  intros Hurl Hbody. unfold withoutBody, withBody, withText.
  rewrite Hurl, Hbody. cbn [sync await later].
  repeat split; intros t r.
  - destruct (fetch url (plain method)) as [t0 [response|e0]|]; cbn;
      [|intros [= <- _]; eexists _, _; split; [reflexivity|lia]|discriminate].
    destruct (ok response); cbn.
    + destruct (json response) as [t1 [v|e1]|]; cbn; try discriminate;
        intros [= <- _]; eexists _, _; (split; [reflexivity|lia]).
    + destruct (json response) as [t1 [v|e1]|]; cbn; try discriminate;
        [destruct (get_error v); cbn|];
        intros [= <- _]; eexists _, _; (split; [reflexivity|lia]).
  - destruct (fetch url (carrying method payload)) as [t0 [response|e0]|]; cbn;
      [|intros [= <- _]; eexists _, _; split; [reflexivity|lia]|discriminate].
    destruct (ok response); cbn.
    + destruct (json response) as [t1 [v|e1]|]; cbn; try discriminate;
        intros [= <- _]; eexists _, _; (split; [reflexivity|lia]).
    + destruct (json response) as [t1 [v|e1]|]; cbn; try discriminate;
        [destruct (get_error v); cbn|];
        intros [= <- _]; eexists _, _; (split; [reflexivity|lia]).
  - destruct (fetch url (plain method)) as [t0 [response|e0]|]; cbn;
      [|intros [= <- _]; eexists _, _; split; [reflexivity|lia]|discriminate].
    destruct (ok response); cbn.
    + destruct (text response) as [t1 [v|e1]|]; cbn; try discriminate;
        intros [= <- _]; eexists _, _; (split; [reflexivity|lia]).
    + destruct (json response) as [t1 [v|e1]|]; cbn; try discriminate;
        [destruct (get_error v); cbn|];
        intros [= <- _]; eexists _, _; (split; [reflexivity|lia]).
Qed.

(** Whatever the operation does, the racer settles, by the timeout at the
    latest, either as the operation or on the envelope of the timeout. *)
Lemma withTimeout_cases (p : promise value) (timeout : option N) :
  let ms := match timeout with Some ms => ms | None => 10000%N end in
  (ms <= 2147483647)%N ->
  exists t r,
    withTimeout p timeout = Settled t r
    /\ (t <= ms)%N
    /\ (p = Settled t r \/ (t = ms /\ r = Ok timeout_failure)).
Proof.
  intros ms _. unfold withTimeout. fold ms.
  unfold async, Return, resolve, after. cbn [await later].
  destruct p as [t r|]; cbn [race].
  - destruct (N.leb_spec t ms) as [Hle|Hgt]; cbn [later].
    + exists (0 + t)%N, r. repeat split; [lia|now left].
    + exists (0 + ms)%N, (Ok timeout_failure). repeat split; [lia|right; split; [lia|reflexivity]].
  - exists (0 + ms)%N, (Ok timeout_failure).
    repeat split; [lia|right; split; [lia|reflexivity]].
Qed.

(** X6. Every call of the facade settles, at time 10000 at the latest,
    whatever [fetch] does: either as its executor settled, at that time, or
    on the envelope of the timeout at time 10000. *)
Theorem api_settles_by_deadline (props : obj) :
  (exists t r,
     api_get PROXY NODE env fetch props = Settled t r /\ (t <= 10000)%N
     /\ (withoutBody PROXY NODE env fetch props GET = Settled t r
         \/ (t = 10000%N /\ r = Ok timeout_failure)))
  /\ (exists t r,
        api_post PROXY NODE env fetch JSON_stringify props = Settled t r
        /\ (t <= 10000)%N
        /\ (withBody PROXY NODE env fetch JSON_stringify props POST = Settled t r
            \/ (t = 10000%N /\ r = Ok timeout_failure)))
  /\ (exists t r,
        api_text PROXY NODE env fetch props = Settled t r /\ (t <= 10000)%N
        /\ (withText PROXY NODE env fetch props GET = Settled t r
            \/ (t = 10000%N /\ r = Ok timeout_failure))).
Proof.
  assert (Hwrap : forall q : promise value, async (Return q) = q).
  { intros q. unfold async, Return, resolve. cbn [await]. apply later_0. }
  unfold api_get, api_post, api_text.
  rewrite (Hwrap (withTimeout (withoutBody PROXY NODE env fetch props GET) None)).
  rewrite (Hwrap (withTimeout
                    (withBody PROXY NODE env fetch JSON_stringify props POST) None)).
  rewrite (Hwrap (withTimeout (withText PROXY NODE env fetch props GET) None)).
  repeat split; apply (withTimeout_cases _ None); discriminate.
Qed.

(** ** The one request of an executor *)

(** X10. The outcome of an executor depends on [fetch] through one request
    only.  For [withoutBody] and [withText] it is the request without a
    body: the URL built from the resolved descriptor, the method's name and
    the JSON content type.  For [withBody] it is the request that carries
    the serialised body, and no other.  Two HTTP calls that agree on the
    request of an executor give it the same outcome. *)
Theorem executors_depend_on_one_request
    (fetch' : string -> RequestInit -> promise Response)
    (props : obj) (method : Method) :
  ((forall url, url_of props = Ok url ->
      fetch url (plain method) = fetch' url (plain method)) ->
   withoutBody PROXY NODE env fetch props method
     = withoutBody PROXY NODE env fetch' props method)
  /\ ((forall url payload,
         url_of props = Ok url ->
         JSON_stringify (resolved props Body) = Ok payload ->
         fetch url (carrying method payload) = fetch' url (carrying method payload)) ->
      withBody PROXY NODE env fetch JSON_stringify props method
        = withBody PROXY NODE env fetch' JSON_stringify props method)
  /\ ((forall url, url_of props = Ok url ->
         fetch url (plain method) = fetch' url (plain method)) ->
      withText PROXY NODE env fetch props method
        = withText PROXY NODE env fetch' props method).
Proof.
  unfold withoutBody, withBody, withText.
  destruct (url_of props) as [url|e] eqn:Hurl; [|repeat split].
  cbn [sync await later]. split; [|split].
  - intros Hplain. now rewrite (Hplain url eq_refl).
  - intros Hcarry.
    destruct (JSON_stringify (resolved props Body)) as [payload|e] eqn:Hbody;
      [|reflexivity].
    cbn [sync await later]. now rewrite (Hcarry url payload eq_refl eq_refl).
  - intros Hplain. now rewrite (Hplain url eq_refl).
Qed.

End Further.

(** ** Every entry of the query, once *)

Lemma insert_index_perm (e : N * string) (l : list (N * string)) :
  Permutation (insert_index e l) (e :: l).
Proof.
  induction l as [|e' l IH]; simpl; [reflexivity|].
  destruct (fst e <=? fst e')%N; [reflexivity|].
  rewrite IH. apply perm_swap.
Qed.

Lemma sort_indices_perm (l : list (N * string)) : Permutation (sort_indices l) l.
Proof.
  induction l as [|e l IH]; simpl; [reflexivity|].
  rewrite insert_index_perm. now constructor.
Qed.

Lemma index_keys_spec (ks : list string) :
  Forall (fun e => array_index (snd e) = Some (fst e)) (index_keys ks).
Proof.
  induction ks as [|k ks IH]; simpl; [constructor|].
  destruct (array_index k) as [n|] eqn:Hk; [constructor; assumption | exact IH].
Qed.

Lemma keys_partition_perm (ks : list string) :
  Permutation
    (map snd (index_keys ks) ++ filter (fun k => negb (is_array_index k)) ks)%list ks.
Proof.
  induction ks as [|k ks IH]; simpl; [reflexivity|].
  unfold is_array_index at 1. destruct (array_index k) as [n|]; simpl.
  - now constructor.
  - rewrite <- Permutation_middle. now constructor.
Qed.

Lemma own_property_keys_perm (q : obj) :
  Permutation (own_property_keys q) (map fst q).
Proof.
  unfold own_property_keys.
  rewrite (Permutation_map snd (sort_indices_perm (index_keys (map fst q)))).
  apply keys_partition_perm.
Qed.

Lemma entries_of_keys (q : obj) :
  NoDup (map fst q) ->
  map (fun k => (k, own_member (VObj q) k)) (map fst q) = q.
Proof.
  intros Hnd. rewrite map_map. rewrite <- (map_id q) at 2.
  apply map_ext_in. intros [k v] Hin. simpl.
  now rewrite (lookup_In q k v Hnd Hin).
Qed.

Lemma buildUrlQuery_keys (q : value) (keys : list string) :
  (forall k, In k keys ->
     ToString (own_member q k) = Ok (text_of (own_member q k))) ->
  fold_right
    (fun key rest =>
       v <- ToString (own_member q key) ;;
       l <- rest ;;
       Ok ((key ++ "=" ++ v) :: l))
    (Ok []) keys
  = Ok (map (fun k => pair_text (k, own_member q k)) keys).
Proof.
  induction keys as [|k keys IH]; intros H; [reflexivity|].
  cbn [fold_right map]. rewrite IH by (intros k' Hin; apply H; now right).
  rewrite (H k (or_introl eq_refl)). reflexivity.
Qed.

(** X12. Whatever its keys, a query object with values that have a text,
    and show no number but safe integers, is serialised with every entry
    exactly once: the pairs of the query string are a rearrangement of the
    entries, in which the array indices come first, in ascending order, and
    the other keys follow in the order of their insertion. *)
Theorem buildUrlQuery_every_entry_once (q : obj) :
  NoDup (map fst q) ->
  Forall (fun kv => ToString (snd kv) = Ok (text_of (snd kv))) q ->
  Forall (fun kv => safe_integers (snd kv) = true) q ->
  exists (order : obj) (idx : list (N * string)),
    buildUrlQuery (VObj q) = Ok (join "&" (map pair_text order))
    /\ Permutation order q
    /\ map fst order
       = (map snd idx ++ filter (fun k => negb (is_array_index k)) (map fst q))%list
    /\ Sorted (fun a b => (fst a <= fst b)%N) idx
    /\ Forall (fun e => array_index (snd e) = Some (fst e)) idx.
Proof.
  intros Hnd Hconv _.
  exists (map (fun k => (k, own_member (VObj q) k)) (own_property_keys q)),
         (sort_indices (index_keys (map fst q))).
  split; [|split; [|split; [|split]]].
  - unfold buildUrlQuery. cbn [Object_keys bind].
    rewrite buildUrlQuery_keys.
    + cbn [bind]. now rewrite map_map.
    + intros k Hin.
      apply (Permutation_in _ (own_property_keys_perm q)) in Hin.
      apply in_map_iff in Hin. destruct Hin as ([k' v] & Hk & Hin).
      simpl in Hk. subst k'. unfold own_member.
      rewrite (lookup_In q k v Hnd Hin).
      rewrite Forall_forall in Hconv. exact (Hconv _ Hin).
  - rewrite <- (entries_of_keys q Hnd) at 2.
    apply Permutation_map, own_property_keys_perm.
  - rewrite map_map. simpl. now rewrite map_id.
  - apply sort_indices_sorted.
  - apply (Permutation_Forall (Permutation_sym (sort_indices_perm _))).
    apply index_keys_spec.
Qed.

(** ** Keys that the descriptor holds as [undefined] *)

Section ExplicitUndefined.

Variables PROXY NODE : Z.
Variable env : Env.

Local Abbreviation resolved props := (getProps PROXY env props).
Local Abbreviation url_of props :=
  (getHost PROXY NODE env (resolved props Route) (resolved props Query)
     (resolved props ServiceKey) (resolved props ApiVersion)).

(** X13. A descriptor that holds [service] as [undefined] is not sent to
    the default service: its URL is made of the host under the key 0 and
    of the route, without port and without version. *)
Theorem explicit_undefined_service_url (props : obj) :
  lookup "service" props = Some VUndefined ->
  url_of props =
    (host <- selectHost PROXY NODE env (VNum 0) ;;
     param <- urlParam (resolved props Query) ;;
     path <- ToString (resolved props Route) ;;
     Ok (stripSlash host ++ "/" ++ path ++ param)).
Proof.
  intros Hservice.
  assert (Hs : resolved props ServiceKey = VUndefined).
  { unfold getProps, get, key_in, key_get, has_own. simpl key_name.
    now rewrite Hservice. }
  rewrite Hs. unfold getHost, appendService.
  change (selectHost PROXY NODE env VUndefined)
    with (selectHost PROXY NODE env (VNum 0)).
  cbn [strict_eq_num].
  destruct (selectHost PROXY NODE env (VNum 0)); reflexivity.
Qed.

(** X14. A descriptor that holds [apiVersion] as [undefined], and has no
    [service] and no [query], is sent to the [PROXY] host with the text
    [undefined] where the version goes. *)
Theorem explicit_undefined_version_url (props : obj) (route : string) :
  PROXY <> NODE ->
  lookup "service" props = None ->
  lookup "apiVersion" props = Some VUndefined ->
  lookup "query" props = None ->
  resolved props Route = VStr route ->
  url_of props =
    Ok (stripSlash (or_else (DEFAULT_API_HOST env) "https://api.mainnet.klever.finance")
        ++ match DEFAULT_API_PORT env with
           | Some port => if port =? "" then "" else ":" ++ port
           | None => ""
           end
        ++ "/undefined/" ++ route).
Proof.
  intros Hne Hservice Hversion Hquery Hroute.
  assert (Hs : resolved props ServiceKey = VNum PROXY).
  { unfold getProps, get, key_in, key_get, has_own. simpl key_name.
    now rewrite Hservice. }
  assert (Hv : resolved props ApiVersion = VUndefined).
  { unfold getProps, get, key_in, key_get, has_own. simpl key_name.
    now rewrite Hversion. }
  assert (Hq : resolved props Query = VUndefined).
  { unfold getProps, get, key_in, key_get, has_own. simpl key_name.
    now rewrite Hquery. }
  rewrite Hs, Hv, Hq, Hroute. unfold getHost, appendService.
  rewrite (selectHost_PROXY PROXY NODE env Hne). cbn [bind strict_eq_num].
  rewrite Z.eqb_refl, urlParam_absent. cbn [bind ToString].
  rewrite append_nil_r, !append_assoc. do 2 f_equal.
  unfold or_else. destruct (DEFAULT_API_PORT env) as [port|]; [|reflexivity].
  destruct (String.eqb_spec port "") as [->|Hport]; [reflexivity|].
  apply String.eqb_neq in Hport. now rewrite Hport.
Qed.

End ExplicitUndefined.

(* ------------------------------------------------------------------ *)
(** * The further properties at sample inputs *)

(** X8 at a service numbered 2, with an HTTP call that would have
    answered. *)
Lemma unknown_service_fails_before_fetch_witness :
  withoutBody 0 1 bare_env (answering x1_response)
    [("route", VStr "status"); ("service", VNum 2)] GET
  = Settled 0 (Ok (failure TypeError)).
Proof.
  destruct (unknown_service_fails_before_fetch 0 1 bare_env
              (answering x1_response) stringify
              [("route", VStr "status"); ("service", VNum 2)] GET 2
              ltac:(discriminate) ltac:(discriminate) eq_refl)
    as (_ & Hget & _).
  exact Hget.
Defined.

(** X9 at the descriptor [{ route: "status" }], with hosts and a port set
    in the environment. *)
Lemma request_url_with_defaults_witness :
  getHost 0 1 slash_env
    (getProps 0 slash_env status_props Route)
    (getProps 0 slash_env status_props Query)
    (getProps 0 slash_env status_props ServiceKey)
    (getProps 0 slash_env status_props ApiVersion)
  = Ok "https://api.example:8080/v1.0/status".
Proof.
  destruct (request_url_with_defaults 0 1 slash_env status_props "status"
              ltac:(discriminate) eq_refl eq_refl eq_refl eq_refl) as (Hurl & _).
  rewrite Hurl. reflexivity.
Defined.

(** X11 at the descriptor [{ route: "/x", apiVersion: undefined }]. *)
Lemma getProps_undefined_only_if_explicit_witness :
  lookup "apiVersion" [("route", VStr "/x"); ("apiVersion", VUndefined)]
  = Some VUndefined.
Proof.
  apply (getProps_undefined_only_if_explicit 0 bare_env
           [("route", VStr "/x"); ("apiVersion", VUndefined)] ApiVersion);
    reflexivity.
Defined.

(** X1 at a request that fails on the network. *)
Lemma executors_catch_fetch_rejection_witness :
  withoutBody 0 1 bare_env refusing status_props GET
  = Settled 7 (Ok (failure (VError "TypeError" "Failed to fetch"))).
Proof.
  destruct (executors_catch_fetch_rejection 0 1 bare_env refusing stringify
              status_props GET "https://api.mainnet.klever.finance/v1.0/status"
              VUndefined 7 (VError "TypeError" "Failed to fetch")
              eq_refl eq_refl eq_refl eq_refl) as (Hget & _).
  exact Hget.
Defined.

(** X2 at a status 502 whose body is an HTML page. *)
Lemma executors_catch_unparsable_failure_body_witness :
  withText 0 1 bare_env (answering gateway_response) status_props GET
  = Settled 123 (Ok (failure (VError "SyntaxError" "Unexpected token <"))).
Proof.
  destruct (executors_catch_unparsable_failure_body 0 1 bare_env
              (answering gateway_response) stringify
              status_props GET "https://api.mainnet.klever.finance/v1.0/status"
              VUndefined 120 3 gateway_response
              (VError "SyntaxError" "Unexpected token <")
              eq_refl eq_refl eq_refl eq_refl eq_refl eq_refl) as (_ & _ & Htext).
  exact Htext.
Defined.

(** X3 at a status 500 whose body is [null]. *)
Lemma executors_null_failure_body_witness :
  withoutBody 0 1 bare_env (answering null_response) status_props GET
  = Settled 123 (Ok (failure TypeError)).
Proof.
  destruct (executors_null_failure_body 0 1 bare_env
              (answering null_response) stringify
              status_props GET "https://api.mainnet.klever.finance/v1.0/status"
              VUndefined 120 3 null_response
              eq_refl eq_refl eq_refl eq_refl eq_refl eq_refl) as (Hget & _).
  exact Hget.
Defined.

(** X4 at an HTTP call whose responses can all be read. *)
Lemma executors_resolve_when_bodies_read_witness :
  withoutBody 0 1 bare_env (answering x1_response) status_props GET
  <> Settled 123 (Throw TypeError).
Proof.
  destruct (executors_resolve_when_bodies_read 0 1 bare_env
              (answering x1_response) stringify status_props GET) as (Hget & _).
  - intros url init t r Hfetch _. unfold answering in Hfetch.
    injection Hfetch as _ <-. split; intros t' e; discriminate.
  - exact (Hget 123%N TypeError).
Defined.

(** X5 at an HTTP call that answers after 120 units, for an executor that
    settles at 123. *)
Lemma executors_wait_for_fetch_witness :
  exists t0 r0,
    answering x1_response "https://api.mainnet.klever.finance/v1.0/status"
      {| init_method := "GET"; init_headers := json_headers; init_body := None |}
    = Settled t0 r0
    /\ (t0 <= 123)%N.
Proof.
  destruct (executors_wait_for_fetch 0 1 bare_env (answering x1_response) stringify
              status_props GET "https://api.mainnet.klever.finance/v1.0/status"
              VUndefined eq_refl eq_refl) as (Hget & _).
  exact (Hget 123%N (Ok (VObj [("x", VNum 1)])) eq_refl).
Defined.

(** X10 at an HTTP call that answers every request, against one that
    answers only the [GET] of the status URL, for [withoutBody] and
    [withText], and against one that answers only the [POST] of that URL
    with a body, for [withBody]. *)
Lemma executors_depend_on_one_request_witness :
  withoutBody 0 1 bare_env (answering x1_response) status_props GET
  = withoutBody 0 1 bare_env
      (selective "https://api.mainnet.klever.finance/v1.0/status" x1_response)
      status_props GET
  /\ withBody 0 1 bare_env (answering x1_response) stringify status_props POST
     = withBody 0 1 bare_env
         (body_only "https://api.mainnet.klever.finance/v1.0/status" x1_response)
         stringify status_props POST
  /\ withText 0 1 bare_env (answering x1_response) status_props GET
     = withText 0 1 bare_env
         (selective "https://api.mainnet.klever.finance/v1.0/status" x1_response)
         status_props GET.
Proof.
  destruct (executors_depend_on_one_request 0 1 bare_env
              (answering x1_response) stringify
              (selective "https://api.mainnet.klever.finance/v1.0/status" x1_response)
              status_props GET) as (Hget & _ & Htext).
  destruct (executors_depend_on_one_request 0 1 bare_env
              (answering x1_response) stringify
              (body_only "https://api.mainnet.klever.finance/v1.0/status" x1_response)
              status_props POST) as (_ & Hpost & _).
  split; [|split].
  - apply Hget. intros url Hurl. injection Hurl as <-. reflexivity.
  - apply Hpost. intros url payload Hurl _. injection Hurl as <-. reflexivity.
  - apply Htext. intros url Hurl. injection Hurl as <-. reflexivity.
Defined.

(** X12 at a query with two array indices inserted after another key, in
    descending order. *)
Lemma buildUrlQuery_every_entry_once_witness :
  exists (order : obj) (idx : list (N * string)),
    buildUrlQuery (VObj [("b", VStr "x"); ("10", VStr "y"); ("2", VNum 7)])
    = Ok (join "&" (map pair_text order))
    /\ Permutation order [("b", VStr "x"); ("10", VStr "y"); ("2", VNum 7)]
    /\ map fst order
       = (map snd idx
          ++ filter (fun k => negb (is_array_index k))
               (map fst [("b", VStr "x"); ("10", VStr "y"); ("2", VNum 7)]))%list
    /\ Sorted (fun a b => (fst a <= fst b)%N) idx
    /\ Forall (fun e => array_index (snd e) = Some (fst e)) idx.
Proof.
  apply (buildUrlQuery_every_entry_once
           [("b", VStr "x"); ("10", VStr "y"); ("2", VNum 7)]).
  - repeat constructor; simpl; intuition discriminate.
  - repeat constructor.
  - repeat constructor.
Defined.

(** X13 at the descriptor [{ route: "status", service: undefined }]: the
    version is missing from the URL. *)
Lemma explicit_undefined_service_url_witness :
  getHost 0 1 bare_env
    (getProps 0 bare_env [("route", VStr "status"); ("service", VUndefined)] Route)
    (getProps 0 bare_env [("route", VStr "status"); ("service", VUndefined)] Query)
    (getProps 0 bare_env [("route", VStr "status"); ("service", VUndefined)] ServiceKey)
    (getProps 0 bare_env [("route", VStr "status"); ("service", VUndefined)] ApiVersion)
  = Ok "https://api.mainnet.klever.finance/status".
Proof.
  rewrite (explicit_undefined_service_url 0 1 bare_env
             [("route", VStr "status"); ("service", VUndefined)] eq_refl).
  reflexivity.
Defined.

(** X14 at the descriptor [{ route: "status", apiVersion: undefined }]. *)
Lemma explicit_undefined_version_url_witness :
  getHost 0 1 bare_env
    (getProps 0 bare_env [("route", VStr "status"); ("apiVersion", VUndefined)] Route)
    (getProps 0 bare_env [("route", VStr "status"); ("apiVersion", VUndefined)] Query)
    (getProps 0 bare_env [("route", VStr "status"); ("apiVersion", VUndefined)] ServiceKey)
    (getProps 0 bare_env [("route", VStr "status"); ("apiVersion", VUndefined)] ApiVersion)
  = Ok "https://api.mainnet.klever.finance/undefined/status".
Proof.
  rewrite (explicit_undefined_version_url 0 1 bare_env
             [("route", VStr "status"); ("apiVersion", VUndefined)] "status"
             ltac:(discriminate) eq_refl eq_refl eq_refl eq_refl).
  reflexivity.
Defined.
